(** * r.viewshed.total: the job scheduler of [main]

    A shallow embedding of [src/r.viewshed.total.py]: the parsing of the
    point listing, the resolution of the worker count, the submission
    loop with its batch waits, the polling loop and the extraction of
    the per-job count, the rasterization and the cleanup.

    The GRASS commands the script calls are the environment.  Their
    answers are collected in a [world] record; the calls the script
    makes are recorded, in order, in a trace of events. *)

From Stdlib Require Import ZArith Ascii String List Lia QArith Sorted.
From Stdlib Require Import DecimalString DecimalZ.
From stdpp Require Import base option list gmap sets strings.

Local Open Scope string_scope.
Local Open Scope list_scope.
Local Open Scope Z_scope.

(** ** Exceptions and results *)

(** The exceptions the script's own operations raise: an index out of
    range, a failed [int()] or [float()], a missing dictionary key. *)
Inductive exn : Type := IndexError | ValueError | KeyError.

Inductive result (A : Type) : Type :=
| Ok (a : A)
| Err (e : exn).
Arguments Ok {A} a.
Arguments Err {A} e.

Definition rbind {A B : Type} (r : result A) (k : A -> result B) : result B :=
  match r with
  | Ok a => k a
  | Err e => Err e
  end.

Definition is_ok {A : Type} (r : result A) : bool :=
  match r with Ok _ => true | Err _ => false end.

(** How a computation ends: it returns, it dies of an uncaught
    exception, or it is still looping when the fuel runs out. *)
Inductive outcome (A : Type) : Type :=
| Done (a : A)
| Raised (e : exn)
| Hang.
Arguments Done {A} a.
Arguments Raised {A} e.
Arguments Hang {A}.

(** [sys.exit(main())]: 0 when [main] returns, 1 after an uncaught
    exception, no exit while it loops. *)
Definition exit_code {A : Type} (o : outcome A) : option Z :=
  match o with
  | Done _ => Some 0
  | Raised _ => Some 1
  | Hang => None
  end.

(** ** Python string operations *)

Module Py.

(** Whitespace of [str.strip()] and of C's [isspace] on byte strings:
    space, and the characters 9 to 13. *)
Definition is_space (c : ascii) : bool :=
  let n := nat_of_ascii c in
  Nat.eqb n 32 || (Nat.leb 9 n && Nat.leb n 13).

Definition is_digit (c : ascii) : bool :=
  let n := nat_of_ascii c in
  Nat.leb 48 n && Nat.leb n 57.

Fixpoint lstrip (s : string) : string :=
  match s with
  | EmptyString => EmptyString
  | String c s' => if is_space c then lstrip s' else s
  end.

Fixpoint rstrip (s : string) : string :=
  match s with
  | EmptyString => EmptyString
  | String c s' =>
      match rstrip s' with
      | EmptyString => if is_space c then EmptyString else String c EmptyString
      | r => String c r
      end
  end.

(** [s.strip()] *)
Definition strip (s : string) : string := rstrip (lstrip s).

(** [s.split(sep)] for a one-character separator: never empty, the
    empty string gives one empty field. *)
Fixpoint split (sep : ascii) (s : string) : list string :=
  match s with
  | EmptyString => [EmptyString]
  | String c s' =>
      if Ascii.eqb c sep then EmptyString :: split sep s'
      else match split sep s' with
           | f :: fs => String c f :: fs
           | [] => [String c EmptyString]
           end
  end.

Definition LF : ascii := ascii_of_nat 10.
Definition CR : ascii := ascii_of_nat 13.

(** [s.splitlines()] on a byte string: lines end at LF, CR or CR LF,
    and a final line end opens no further line. *)
Fixpoint splitlines (s : string) : list string :=
  match s with
  | EmptyString => []
  | String c s' =>
      if Ascii.eqb c LF then EmptyString :: splitlines s'
      else if Ascii.eqb c CR then
        match s' with
        | String c' s'' =>
            if Ascii.eqb c' LF then EmptyString :: splitlines s''
            else EmptyString :: splitlines s'
        | EmptyString => [EmptyString]
        end
      else match splitlines s' with
           | l :: ls => String c l :: ls
           | [] => [String c EmptyString]
           end
  end.

(** [l[i]] on a list: [IndexError] out of range. *)
Definition index {A : Type} (l : list A) (i : nat) : result A :=
  match l !! i with
  | Some a => Ok a
  | None => Err IndexError
  end.

Definition digit_value (c : ascii) : Z := Z.of_nat (nat_of_ascii c) - 48.

Fixpoint digits (acc : Z) (s : string) : option Z :=
  match s with
  | EmptyString => Some acc
  | String c s' =>
      if is_digit c then digits (10 * acc + digit_value c) s' else None
  end.

(** [int(s)] in base 10, as CPython 2 reads a byte string: leading
    whitespace, an optional sign, whitespace again, at least one
    decimal digit, trailing whitespace; anything else is a
    [ValueError].  The value is unbounded.  (The suffix [L] that
    CPython 2 lets through on a numeral beyond the machine word is
    left out.) *)
Definition int (s : string) : result Z :=
  let s1 := lstrip s in
  let '(neg, s2) :=
    match s1 with
    | String "-" r => (true, lstrip r)
    | String "+" r => (false, lstrip r)
    | _ => (false, s1)
    end in
  match rstrip s2 with
  | EmptyString => Err ValueError
  | ds => match digits 0 ds with
          | Some v => Ok (if neg : bool then - v else v)
          | None => Err ValueError
          end
  end.

(** [str(n)] of an integer. *)
Definition str (n : Z) : string := NilEmpty.string_of_int (Z.to_int n).

End Py.

(** A decimal fragment of [float(s)], with exact rational values: an
    optional sign, digits, and an optional fraction.  The development
    is generic in the float conversion; this instance runs the
    examples. *)
Definition decimal_float (s : string) : result Q :=
  let s1 := Py.strip s in
  let '(neg, s2) :=
    match s1 with
    | String "-" r => (true, r)
    | String "+" r => (false, r)
    | _ => (false, s1)
    end in
  match Py.split "." s2 with
  | [i] =>
      match i, Py.digits 0 i with
      | String _ _, Some v => Ok (inject_Z (if neg : bool then - v else v))
      | _, _ => Err ValueError
      end
  | [i; f] =>
      match Py.digits 0 i, Py.digits 0 f with
      | Some v, Some u =>
          if (String.length i + String.length f =? 0)%nat then Err ValueError
          else
            let q := (inject_Z v + inject_Z u / inject_Z (10 ^ Z.of_nat (String.length f)))%Q in
            Ok (Qred (if neg : bool then - q else q)%Q)
      | _, _ => Err ValueError
      end
  | _ => Err ValueError
  end.

(** ** The environment *)

(** What the GRASS session answers to the script.  [options] is the
    dictionary of options that [grass.parser()] returns on line 108:
    it holds a value, possibly the empty string, for every option that
    the header of the script declares (lines 31 to 98), and the eight
    keys that [main] reads are all declared there, so that reading
    them cannot fail; [flag_r] and [flag_c] are the two flags.
    [v_out_ascii] is the text that [v.out.ascii] prints for the input
    vector.  [find_file t name] is the answer of the [t]-th existence
    lookup of the run (counted from 0) when it asks for the raster
    [name]: the rasters appear as the worker processes write them, in
    any order.  [r_stats name] is the text [r.stats -c] prints for the
    raster [name].  The two exit statuses are what [run_command]
    returns for the conversion and for a removal of the given type.
    The calls into the GRASS library are taken to return: an exception
    raised inside one of them is outside this model. *)
Record world : Type := World {
  options : string -> string;
  flag_r : bool;
  flag_c : bool;
  cpu_count : Z;
  environ_WORKERS : option string;
  v_out_ascii : string;
  find_file : nat -> string -> bool;
  r_stats : string -> string;
  to_rast_status : Z;
  remove_status : string -> Z
}.

(** ** Pure parts of [main] *)

(** The options that [main] copies for [r.viewshed], lines 115 and 116. *)
Definition option_keys : list string :=
  ["observer_elevation"; "target_elevation"; "max_distance"; "memory"; "refraction_coeff"].

(** [viewshed_options], lines 114 to 117: the dictionary that the loop
    fills, one key at a time. *)
Definition viewshed_options (options : string -> string) : gmap string string :=
  foldl (fun acc option => <[option := options option]> acc) ∅ option_keys.

(** [flagstring], lines 122 to 126. *)
Definition flagstring (w : world) : string :=
  (if flag_r w then "r" else "") +:+ (if flag_c w then "c" else "").

Definition nonempty (s : string) : bool :=
  match s with EmptyString => false | String _ _ => true end.

(** [pointList], lines 129 to 136: the listing is stripped, and every
    line that is not the empty string is stripped and split at the
    commas. *)
Definition parse_points (listing : string) : list (list string) :=
  List.map (fun line => Py.split "," (Py.strip line))
           (List.filter nonempty (Py.splitlines (Py.strip listing))).

(** [workers], lines 145 to 152.  [workers is 1] compares with the
    cached small integer 1. *)
Definition resolve_workers (cpus : Z) (env : option string) : result Z :=
  rbind
    (if decide (cpus = 1)
     then match env with
          | Some s => Py.int s
          | None => Ok cpus
          end
     else Ok cpus)
    (fun workers => Ok (if workers <? 1 then 1 else workers)).

(** The raster a job writes and the aggregation reads:
    ["tempViewsh"+str(count)]. *)
Definition artifact_name (count : Z) : string := "tempViewsh" +:+ Py.str count.

(** Line 174: the second space-separated field of the second line of
    the report. *)
Definition extract_count (viewshStats : string) : result Z :=
  rbind (Py.index (Py.splitlines viewshStats) 1) (fun line =>
  rbind (Py.index (Py.split " " line) 1) Py.int).

(** [int(point[2])], line 156. *)
Definition point_count (point : list string) : result Z :=
  rbind (Py.index point 2) Py.int.

(** ** Sample sessions *)

Definition NL : string := String Py.LF EmptyString.

(** The options as the parser returns them for the command line
    [rast=elevation vect=observers output=total]: the other options
    have the answers that the header gives them. *)
Definition sample_options (key : string) : string :=
  default "" ((list_to_map [("rast", "elevation"); ("vect", "observers");
                            ("output", "total");
                            ("observer_elevation", "1.75"); ("target_elevation", "1.75");
                            ("max_distance", "1000"); ("memory", "500");
                            ("refraction_coeff", "0.14286")] : gmap string string) !! key).

(** A session without flags and without the WORKERS setting, in which
    every command exits with status 0. *)
Definition session (listing : list string) (cpus : Z)
    (ready : nat -> string -> bool) (stats : string -> string) : world :=
  {| options := sample_options;
     flag_r := false; flag_c := false; cpu_count := cpus; environ_WORKERS := None;
     v_out_ascii := String.concat NL listing +:+ NL;
     find_file := ready; r_stats := stats;
     to_rast_status := 0; remove_status := fun _ => 0 |}.

Definition report (rows : list string) : string := String.concat NL rows +:+ NL.

(** Three points on two processors; the rasters are there from the
    fourth lookup on. *)
Definition w_three : world :=
  session ["1.5,2.5,1"; "3,4,2"; ""; "5,6,3"] 2
          (fun t _ => (3 <=? t)%nat)
          (fun _ => report ["0 100"; "1 7"; "* 3"]).

(** The same session with the rasters appearing in the reverse order
    of the job numbers. *)
Definition w_three_reversed : world :=
  session ["1.5,2.5,1"; "3,4,2"; ""; "5,6,3"] 2
          (fun t name =>
             if String.eqb name "tempViewsh3" then true
             else if String.eqb name "tempViewsh2" then (2 <=? t)%nat
             else (6 <=? t)%nat)
          (fun _ => report ["0 100"; "1 7"; "* 3"]).


(** The second line of the listing lacks its third field. *)
Definition w_short_line : world :=
  session ["1.5,2.5,1"; "10.5,20.3"] 2 (fun _ _ => true)
          (fun _ => report ["0 100"; "1 7"]).

(** A report without a line for the visible cells, but with a line
    for the null cells. *)
Definition w_null_row : world :=
  session ["1,2,1"] 1 (fun _ _ => true) (fun _ => report ["0 100"; "* 50"]).

(** A report with the line of the invisible cells only. *)
Definition w_occluded : world :=
  session ["1,2,1"] 1 (fun _ _ => true) (fun _ => report ["0 100"]).

(** A report that fails, after a first job that went through. *)
Definition w_broken_report : world :=
  session ["1,2,1"; "3,4,2"] 1 (fun _ _ => true)
          (fun name => if String.eqb name "tempViewsh2" then report ["0 100"]
                       else report ["0 100"; "1 7"]).

(** The two lines carry each other's job number. *)
Definition w_swapped : world :=
  session ["1,1,2"; "2,2,1"] 4 (fun _ _ => true)
          (fun name => if String.eqb name "tempViewsh1" then report ["0 5"; "1 11"]
                       else report ["0 5"; "1 22"]).

(** The job numbers 1, 3 and 5 on two processors. *)
Definition w_sparse : world :=
  session ["1,1,1"; "2,2,3"; "3,3,5"] 2 (fun _ _ => true)
          (fun _ => report ["0 100"; "1 7"]).


(** The job numbers 1 and 3 on two processors; a raster [tempViewsh2]
    is there from the start, as an earlier run that failed leaves it. *)
Definition w_gap : world :=
  session ["1,1,1"; "2,2,3"] 2 (fun _ _ => true)
          (fun name => if String.eqb name "tempViewsh1" then report ["0 5"; "1 11"]
                       else if String.eqb name "tempViewsh2" then report ["0 5"; "1 22"]
                       else report ["0 5"; "1 33"]).


(** One processor and a WORKERS setting that is not a numeral. *)
Definition w_bad_workers : world :=
  {| options := sample_options;
     flag_r := false; flag_c := false; cpu_count := 1; environ_WORKERS := Some "two";
     v_out_ascii := report ["1,2,1"; "3,4,2"];
     find_file := fun _ _ => true; r_stats := fun _ => report ["0 100"; "1 7"];
     to_rast_status := 0; remove_status := fun _ => 0 |}.

(** A listing without any point. *)
Definition w_empty : world :=
  session [""; "  "] 2 (fun _ _ => true) (fun _ => report ["0 100"; "1 7"]).

(** Both flags set, one processor, and job numbers that are not the
    positions. *)
Definition w_flags : world :=
  {| options := sample_options;
     flag_r := true; flag_c := true; cpu_count := 1; environ_WORKERS := None;
     v_out_ascii := report ["1,2,7"; "3,4,7"];
     find_file := fun t _ => (2 <=? t)%nat; r_stats := fun _ => report ["0 100"; "1 7"];
     to_rast_status := 0; remove_status := fun _ => 0 |}.

(** The first coordinate of the second line is not a number. *)
Definition w_bad_coordinate : world :=
  session ["1,2,1"; "east,4,2"] 1 (fun _ _ => true)
          (fun _ => report ["0 100"; "1 7"]).

(** ** The effectful part of [main] *)

Section Scheduler.

(** Python's floats and [float(s)]. *)
Variable float : Type.
Variable py_float : string -> result float.

(** The calls the script makes to the GRASS session: the commands it
    runs through [read_command], [start_command] and [run_command],
    with the arguments that are not constants of the script, the
    waits for the started processes and the lookups of [find_file].
    A handle is the [Popen] object of a [start_command]: the number of
    the call.  [kwargs] is the dictionary passed as
    [**viewshed_options].  The writing of the temporary vector through
    [VectorTopo], lines 177 to 185, is part of [EToRast], which carries
    the rows written. *)
Inductive event : Type :=
| EOutAscii (input : string)
| EStart (h : nat) (input flags output coordinates : string) (kwargs : gmap string string)
| EWait (h : nat)
| EFindFile (name : string) (found : bool)
| EStats (name : string)
| EToRast (rows : list (float * float * Z)) (output : string) (status : Z)
| ERemove (type pattern : string) (status : Z).

(** [process] is the dictionary of line 142, [spawned] the number of
    processes started, [lookups] the number of existence lookups made,
    [trace] the calls made so far, oldest first. *)
Record state : Type := State {
  process : gmap Z nat;
  spawned : nat;
  lookups : nat;
  trace : list event
}.

Definition initial : state :=
  {| process := ∅; spawned := 0; lookups := 0; trace := [] |}.

Definition M (A : Type) : Type := state -> outcome A * state.

Definition ret {A : Type} (a : A) : M A := fun σ => (Done a, σ).

Definition bind {A B : Type} (m : M A) (k : A -> M B) : M B :=
  fun σ =>
    match m σ with
    | (Done a, σ') => k a σ'
    | (Raised e, σ') => (Raised e, σ')
    | (Hang, σ') => (Hang, σ')
    end.

Notation "x <- m ;; k" := (bind m (fun x => k))
  (at level 100, m at next level, right associativity).
Notation "m ;;; k" := (bind m (fun _ => k))
  (at level 100, right associativity).

Definition lift {A : Type} (r : result A) : M A :=
  fun σ => match r with Ok a => (Done a, σ) | Err e => (Raised e, σ) end.

Definition emit (e : event) : M unit :=
  fun σ => (Done tt, {| process := process σ; spawned := spawned σ;
                        lookups := lookups σ; trace := trace σ ++ [e] |}).

(** [grass.read_command("v.out.ascii", flags='r', input=vect, ...)],
    line 129. *)
Definition read_points (w : world) : M string :=
  emit (EOutAscii (options w "vect")) ;;; ret (v_out_ascii w).

(** [grass.start_command("r.viewshed", quiet=True, overwrite=True,
    input=..., flags=..., output=..., coordinates=..., **kwargs)]:
    returns at once with a fresh handle. *)
Definition start_command (input flags output coordinates : string)
    (kwargs : gmap string string) : M nat :=
  fun σ =>
    let h := spawned σ in
    (Done h, {| process := process σ; spawned := S h; lookups := lookups σ;
                trace := trace σ ++ [EStart h input flags output coordinates kwargs] |}).

(** [process[count] = h] *)
Definition set_process (count : Z) (h : nat) : M unit :=
  fun σ => (Done tt, {| process := <[count := h]> (process σ); spawned := spawned σ;
                        lookups := lookups σ; trace := trace σ |}).

(** [process[k]]: a [KeyError] when the key is absent. *)
Definition get_process (k : Z) : M nat :=
  fun σ => match process σ !! k with
           | Some h => (Done h, σ)
           | None => (Raised KeyError, σ)
           end.

(** [h.wait()] *)
Definition wait (h : nat) : M unit := emit (EWait h).

(** Lines 163 and 164: [for job in range(workers): process[count-job].wait()] *)
Fixpoint wait_jobs (count : Z) (jobs : list Z) : M unit :=
  match jobs with
  | [] => ret tt
  | job :: jobs' =>
      h <- get_process (count - job) ;;
      wait h ;;;
      wait_jobs count jobs'
  end.

(** The body of the submission loop, lines 156 to 164. *)
Definition submit (w : world) (workers : Z) (point : list string) : M unit :=
  count <- lift (point_count point) ;;
  x <- lift (Py.index point 0) ;;
  y <- lift (Py.index point 1) ;;
  h <- start_command (options w "rast") (flagstring w +:+ "b") (artifact_name count)
                     (x +:+ "," +:+ y) (viewshed_options (options w)) ;;
  set_process count h ;;;
  if decide (count `mod` workers = 0) then wait_jobs count (seqZ 0 workers)
  else ret tt.

(** [for x in l: f(x)] *)
Fixpoint for_each {A : Type} (f : A -> M unit) (l : list A) : M unit :=
  match l with
  | [] => ret tt
  | a :: l' => f a ;;; for_each f l'
  end.

(** The submission loop, lines 155 to 164. *)
Definition submit_all (w : world) (workers : Z) (pointList : list (list string)) : M unit :=
  for_each (submit w workers) pointList.

(** [grass.find_file(name, element='cell')]: whether a raster was found. *)
Definition lookup_file (w : world) (name : string) : M bool :=
  fun σ =>
    let found := find_file w (lookups σ) name in
    (Done found, {| process := process σ; spawned := spawned σ;
                    lookups := S (lookups σ);
                    trace := trace σ ++ [EFindFile name found] |}).

(** The loop of lines 168 to 170, cut after [fuel] lookups. *)
Fixpoint poll (w : world) (fuel : nat) (name : string) : M unit :=
  match fuel with
  | O => fun σ => (Hang, σ)
  | S fuel' =>
      found <- lookup_file w name ;;
      if found : bool then ret tt else poll w fuel' name
  end.

(** [grass.read_command("r.stats", flags='c', input=name)] *)
Definition read_stats (w : world) (name : string) : M string :=
  emit (EStats name) ;;; ret (r_stats w name).

(** The body of the aggregation loop, lines 168 to 174, for the
    position [viewsh]. *)
Definition collect (w : world) (fuel : nat) (pointList : list (list string))
    (viewsh : nat) : M (float * float * Z) :=
  let name := artifact_name (Z.of_nat viewsh + 1) in
  poll w fuel name ;;;
  viewshStats <- read_stats w name ;;
  point <- lift (Py.index pointList viewsh) ;;
  x <- lift (rbind (Py.index point 0) py_float) ;;
  y <- lift (rbind (Py.index point 1) py_float) ;;
  n <- lift (extract_count viewshStats) ;;
  ret (x, y, n).

(** The aggregation loop, lines 166 to 174: the list it returns is
    [totViewshData]. *)
Fixpoint collect_all (w : world) (fuel : nat) (pointList : list (list string))
    (positions : list nat) : M (list (float * float * Z)) :=
  match positions with
  | [] => ret []
  | viewsh :: positions' =>
      d <- collect w fuel pointList viewsh ;;
      ds <- collect_all w fuel pointList positions' ;;
      ret (d :: ds)
  end.

(** Lines 176 to 189: the rows are written to the temporary vector and
    the vector is converted; the status of the conversion is dropped. *)
Definition to_rast (w : world) (totViewshData : list (float * float * Z)) : M unit :=
  emit (EToRast totViewshData (options w "output") (to_rast_status w)).

(** Lines 192 and 193: the status of [g.remove] is dropped. *)
Definition remove (w : world) (type pattern : string) : M unit :=
  emit (ERemove type pattern (remove_status w type)).

(** [main], lines 107 to 195.  The options and flags that lines 111
    to 126 read ([rast], [vect], [out], [viewshed_options],
    [flagstring]) are taken from [w] where the calls use them. *)
Definition main (w : world) (fuel : nat) : M unit :=
  points <- read_points w ;;
  let pointList := parse_points points in
  workers <- lift (resolve_workers (cpu_count w) (environ_WORKERS w)) ;;
  submit_all w workers pointList ;;;
  totViewshData <- collect_all w fuel pointList (seq 0 (length pointList)) ;;
  to_rast w totViewshData ;;;
  remove w "raster" "tempViewsh*" ;;;
  remove w "vector" "tempVect".

Definition run (w : world) (fuel : nat) : outcome unit * state := main w fuel initial.

(** ** Observations on traces *)

(** The processes started and not yet waited for, after a trace. *)
Definition step_running (R : gset nat) (e : event) : gset nat :=
  match e with
  | EStart h _ _ _ _ _ => {[h]} ∪ R
  | EWait h => R ∖ {[h]}
  | _ => R
  end.

Definition running (t : list event) : gset nat := foldl step_running ∅ t.


(** ** Notions used to state the properties *)

(** A numeral made of decimal digits only, the way a cell count is
    printed. *)
Fixpoint all_digits (s : string) : bool :=
  match s with
  | EmptyString => true
  | String c s' => Py.is_digit c && all_digits s'
  end.

Definition unsigned_numeral (s : string) : bool := nonempty s && all_digits s.

(** The category of a report line, and whether a report has a line for
    the category 1, which [r.viewshed -b] gives to the visible cells. *)
Definition row_category (line : string) : string :=
  match Py.split " " line with
  | c :: _ => c
  | [] => EmptyString
  end.

Definition has_visible_row (viewshStats : string) : bool :=
  existsb (fun line => String.eqb (row_category line) "1") (Py.splitlines viewshStats).

(** The listing carries the job numbers 1, 2, ... in line order. *)
Definition sequential (pointList : list (list string)) : Prop :=
  List.map point_count pointList
  = List.map (fun i => Ok (Z.of_nat i + 1)) (seq 0 (length pointList)).

(** The events of the submission loop, of the aggregation loop, and of
    the rasterization and cleanup. *)
Definition is_launch (e : event) : Prop :=
  match e with
  | EStart _ _ _ _ _ _ | EWait _ => True
  | _ => False
  end.

Definition is_poll (e : event) : Prop :=
  match e with
  | EFindFile _ _ | EStats _ => True
  | _ => False
  end.

Definition is_output (e : event) : Prop :=
  match e with
  | EToRast _ _ _ | ERemove _ _ _ => True
  | _ => False
  end.

(** The rasters summarized in a trace, in order. *)
Definition stats_names (t : list event) : list string :=
  omap (fun e => match e with EStats name => Some name | _ => None end) t.

(** The rasters the started processes write, in order of start. *)
Definition started_outputs (t : list event) : list string :=
  omap (fun e => match e with EStart _ _ _ output _ _ => Some output | _ => None end) t.

(** The rows handed to the conversion in a trace. *)
Definition rasterized (t : list event) : list (list (float * float * Z)) :=
  omap (fun e => match e with EToRast rows _ _ => Some rows | _ => None end) t.

(** The row that line 173 builds for the position [viewsh], as a
    function of the listing and of the reports alone. *)
Definition row_at (w : world) (pointList : list (list string)) (viewsh : nat)
    : result (float * float * Z) :=
  rbind (Py.index pointList viewsh) (fun point =>
  rbind (rbind (Py.index point 0) py_float) (fun x =>
  rbind (rbind (Py.index point 1) py_float) (fun y =>
  rbind (extract_count (r_stats w (artifact_name (Z.of_nat viewsh + 1)))) (fun n =>
  Ok (x, y, n))))).

(** Two sessions that differ at most in when the rasters appear. *)
Definition same_but_timing (w w' : world) : Prop :=
  flag_r w = flag_r w' /\ flag_c w = flag_c w' /\ cpu_count w = cpu_count w'
  /\ environ_WORKERS w = environ_WORKERS w' /\ v_out_ascii w = v_out_ascii w'
  /\ r_stats w = r_stats w' /\ to_rast_status w = to_rast_status w'
  /\ remove_status w = remove_status w'.

(** A computation only appends events of the class [P] to the trace. *)
Definition extends (P : event -> Prop) {A : Type} (m : M A) : Prop :=
  forall σ o σ', m σ = (o, σ') -> exists t, trace σ' = trace σ ++ t /\ Forall P t.

Definition is_find (e : event) : Prop :=
  match e with
  | EFindFile _ _ => True
  | _ => False
  end.

(** The three calls that end a successful run. *)
Definition closing_events (w : world) (rows : list (float * float * Z)) : list event :=
  [EToRast rows (options w "output") (to_rast_status w);
   ERemove "raster" "tempViewsh*" (remove_status w "raster");
   ERemove "vector" "tempVect" (remove_status w "vector")].

Definition is_wait (e : event) : Prop :=
  match e with
  | EWait _ => True
  | _ => False
  end.

(** The call that starts the job of a point: line 158. *)
Definition job_start (w : world) (h : nat) (count : Z) (point : list string) : event :=
  EStart h (options w "rast") (flagstring w +:+ "b") (artifact_name count)
         (default "" (point !! 0%nat) +:+ "," +:+ default "" (point !! 1%nat))
         (viewshed_options (options w)).

(** The lines of the listing with their positions from [i] on. *)
Definition numbered_from (i : nat) (pointList : list (list string))
    : list (nat * list string) :=
  zip (seq i (length pointList)) pointList.

Definition numbered (pointList : list (list string)) : list (nat * list string) :=
  numbered_from 0 pointList.

(** What one turn of the submission loop calls for the line at the
    position [i] of a sequential listing: the job [i+1] is started with
    the handle [i], and when [i+1] is a multiple of the worker count the
    last [W] handles are waited for, newest first. *)
Definition launch_step (w : world) (W : Z) (ip : nat * list string) : list event :=
  job_start w ip.1 (Z.of_nat ip.1 + 1) ip.2
  :: (if decide ((Z.of_nat ip.1 + 1) `mod` W = 0)
      then (fun job => EWait (ip.1 - job)) <$> seq 0 (Z.to_nat W)
      else []).

(** Consecutive batches of [n] elements; the last one may be shorter. *)
Fixpoint batches_upto {A : Type} (fuel n : nat) (l : list A) : list (list A) :=
  match fuel with
  | O => []
  | S fuel' =>
      match l with
      | [] => []
      | _ :: _ => take n l :: batches_upto fuel' n (drop n l)
      end
  end.

Definition batches {A : Type} (n : nat) (l : list A) : list (list A) :=
  batches_upto (length l) n l.

(** The lockstep schedule in the words of the specification: every job
    of a batch is submitted, and a batch of full size is then waited
    for, job by job, before the next batch. *)
Definition batch_events (w : world) (n : nat) (batch : list (nat * list string)) : list event :=
  ((fun ip => job_start w ip.1 (Z.of_nat ip.1 + 1) ip.2) <$> batch)
  ++ (if decide (length batch = n)
      then (fun ip => EWait ip.1) <$> reverse batch
      else []).

Definition batched_trace (w : world) (n : nat) (pointList : list (list string)) : list event :=
  concat (batch_events w n <$> batches n (numbered pointList)).


(** From the set [R] of running processes on, the trace [t] never has
    more than [n] processes running. *)
Definition within (n : nat) (R : gset nat) (t : list event) : Prop :=
  forall t', t' `prefix_of` t -> (size (foldl step_running R t') <= n)%nat.

(** The job number a line carries, when it can be read. *)
Definition job_number (point : list string) : Z :=
  match point_count point with
  | Ok c => c
  | Err _ => 0
  end.

(** With a single worker: the job of a line is started and waited
    for at once. *)
Definition serial_step (w : world) (ip : nat * list string) : list event :=
  [job_start w ip.1 (job_number ip.2) ip.2; EWait ip.1].

(** A start as line 158 makes it: the flag string of the run with
    [b] appended, and a raster named for an integer. *)
Definition job_call (w : world) (e : event) : Prop :=
  match e with
  | EStart _ _ flags output _ _ =>
      flags = flagstring w +:+ "b" /\ exists c : Z, output = artifact_name c
  | _ => True
  end.

(** The options in a call of the script: the input vector goes to
    [v.out.ascii], the input raster and the copied options go to
    [r.viewshed], the output name goes to [v.to.rast]. *)
Definition option_use (w : world) (e : event) : Prop :=
  match e with
  | EOutAscii input => input = options w "vect"
  | EStart _ input _ _ _ kwargs =>
      input = options w "rast" /\ kwargs = viewshed_options (options w)
  | EToRast _ output _ => output = options w "output"
  | _ => True
  end.

(** The calls the aggregation makes for one raster: lookups answered
    no, one lookup answered yes, and the report. *)
Definition poll_block (name : string) (block : list event) : Prop :=
  exists k : nat, block = replicate k (EFindFile name false) ++ [EFindFile name true; EStats name].

(** The two coordinates of a line as line 173 converts them. *)
Definition coordinates_of (point : list string) : result (float * float) :=
  rbind (rbind (Py.index point 0) py_float) (fun x =>
  rbind (rbind (Py.index point 1) py_float) (fun y => Ok (x, y))).

(** Every character of a string passes a test. *)
Fixpoint all_chars (P : ascii -> bool) (s : string) : bool :=
  match s with
  | EmptyString => true
  | String c s' => P c && all_chars P s'
  end.

Definition not_char (sep : ascii) (c : ascii) : bool := negb (Ascii.eqb c sep).

Definition not_space (c : ascii) : bool := negb (Py.is_space c).

Definition not_break (c : ascii) : bool :=
  negb (Ascii.eqb c Py.LF) && negb (Ascii.eqb c Py.CR).

(** A field as [v.out.ascii] prints it: not empty, without whitespace
    and without a comma. *)
Definition plain_field (s : string) : bool :=
  nonempty s && all_chars not_space s && all_chars (not_char ",") s.

(** The listing of points in the point format with the comma as
    separator: one line for each point, its fields joined by commas. *)
Definition listing_of (points : list (list string)) : string :=
  String.concat NL (String.concat "," <$> points) +:+ NL.

(** The state [σ] with the calls [t0] made before its own. *)
Definition after (t0 : list event) (σ : state) : state :=
  {| process := process σ; spawned := spawned σ; lookups := lookups σ;
     trace := t0 ++ trace σ |}.

(** A computation that never looks at the calls made so far: it does
    the same after any calls made before. *)
Definition trace_blind {A : Type} (m : M A) : Prop :=
  forall t0 σ, m (after t0 σ) = ((m σ).1, after t0 (m σ).2).

(** The state of a run when the listing has been read: line 131. *)
Definition listed (w : world) : state := after [EOutAscii (options w "vect")] initial.

(** * Properties *)

(** ** Strings and numerals *)

Lemma str_inj (a b : Z) : Py.str a = Py.str b -> a = b.
Proof.
  unfold Py.str. intros H.
  apply DecimalZ.to_int_inj.
  assert (Hs : NilEmpty.int_of_string (NilEmpty.string_of_int (Z.to_int a))
               = NilEmpty.int_of_string (NilEmpty.string_of_int (Z.to_int b)))
    by (rewrite H; reflexivity).
  rewrite !NilEmpty.isi in Hs. congruence.
Qed.

Lemma append_inj_r (p x y : string) : p +:+ x = p +:+ y -> x = y.
Proof.
  induction p as [|c p IH]; intros H; [exact H|].
  apply IH. change (String c (p +:+ x) = String c (p +:+ y)) in H. congruence.
Qed.

Lemma artifact_name_inj (a b : Z) : artifact_name a = artifact_name b -> a = b.
Proof.
  unfold artifact_name. intros H. apply str_inj. exact (append_inj_r _ _ _ H).
Qed.

Lemma digit_not_space (c : ascii) : Py.is_digit c = true -> Py.is_space c = false.
Proof.
  unfold Py.is_digit, Py.is_space. intros H.
  apply andb_true_iff in H as [H1 H2].
  apply Nat.leb_le in H1. apply Nat.leb_le in H2.
  apply orb_false_iff. split.
  - apply Nat.eqb_neq. lia.
  - apply andb_false_iff. right. apply Nat.leb_gt. lia.
Qed.

Lemma digit_value_bounds (c : ascii) :
  Py.is_digit c = true -> 0 <= Py.digit_value c <= 9.
Proof.
  unfold Py.is_digit, Py.digit_value. intros H.
  apply andb_true_iff in H as [H1 H2].
  apply Nat.leb_le in H1. apply Nat.leb_le in H2. lia.
Qed.

Lemma rstrip_all_digits (s : string) : all_digits s = true -> Py.rstrip s = s.
Proof.
  induction s as [|c s IH]; simpl; [reflexivity|].
  intros H. apply andb_true_iff in H as [Hc Hs].
  rewrite (IH Hs). destruct s; [|reflexivity].
  rewrite (digit_not_space _ Hc). reflexivity.
Qed.

Lemma digits_all_digits (s : string) (acc : Z) :
  all_digits s = true -> 0 <= acc -> exists v, Py.digits acc s = Some v /\ acc <= v.
Proof.
  revert acc. induction s as [|c s IH]; simpl; intros acc H Hacc.
  - exists acc. split; [reflexivity|lia].
  - apply andb_true_iff in H as [Hc Hs]. rewrite Hc.
    pose proof (digit_value_bounds _ Hc) as Hb.
    destruct (IH (10 * acc + Py.digit_value c) Hs) as (v & Hv & Hle); [lia|].
    exists v. split; [exact Hv|lia].
Qed.

(** [int()] of an unsigned numeral is a non-negative integer. *)
Lemma int_unsigned (s : string) :
  unsigned_numeral s = true -> exists v, Py.int s = Ok v /\ 0 <= v.
Proof.
  unfold unsigned_numeral. intros H.
  apply andb_true_iff in H as [Hne Hd].
  destruct s as [|c s]; [discriminate|]. clear Hne.
  pose proof Hd as Hd'. simpl in Hd'. apply andb_true_iff in Hd' as [Hc Hs].
  destruct (digits_all_digits (String c s) 0 Hd) as (v & Hv & Hle); [lia|].
  exists v. split; [|exact Hle].
  unfold Py.int.
  assert (Hl : Py.lstrip (String c s) = String c s)
    by (simpl; rewrite (digit_not_space _ Hc); reflexivity).
  rewrite Hl.
  assert (Hsign : match String c s with
                  | String "-" r => (true, Py.lstrip r)
                  | String "+" r => (false, Py.lstrip r)
                  | _ => (false, String c s)
                  end = (false, String c s)).
  { destruct c as [[] [] [] [] [] [] [] []]; try reflexivity; discriminate Hc. }
  rewrite Hsign. rewrite (rstrip_all_digits _ Hd). rewrite Hv. reflexivity.
Qed.

(** ** The worker count *)

Lemma clamp_max (v : Z) : (if v <? 1 then 1 else v) = Z.max 1 v.
Proof. destruct (Z.ltb_spec v 1); lia. Qed.

Lemma resolve_workers_pos (cpus : Z) (env : option string) (W : Z) :
  resolve_workers cpus env = Ok W -> 1 <= W.
Proof.
  unfold resolve_workers. intros H.
  destruct (if decide (cpus = 1)
            then match env with
                 | Some s => Py.int s
                 | None => Ok cpus
                 end
            else Ok cpus) as [v|e]; simpl in H; [|discriminate].
  injection H as <-. rewrite clamp_max. lia.
Qed.

(** C4 (as amended): the worker count is the host's processor count,
    clamped to 1; the WORKERS setting is read only when that count is
    exactly 1, and then replaces it, clamped to 1 as well. *)
Theorem resolve_workers_guarded (cpus : Z) (env : option string) :
  (env = None \/ cpus <> 1 -> resolve_workers cpus env = Ok (Z.max 1 cpus)) /\
  (forall s, cpus = 1 -> env = Some s ->
     resolve_workers cpus env = rbind (Py.int s) (fun v => Ok (Z.max 1 v))) /\
  (forall W, resolve_workers cpus env = Ok W -> 1 <= W).
Proof.
  pose proof clamp_max as Hclamp.
  split; [|split; [|apply resolve_workers_pos]]; unfold resolve_workers.
  - intros [-> | Hne].
    + destruct (decide (cpus = 1)); simpl; rewrite Hclamp; reflexivity.
    + destruct (decide (cpus = 1)); [contradiction|].
      simpl. rewrite Hclamp. reflexivity.
  - intros s -> ->. simpl. destruct (Py.int s) as [v|e]; simpl; [|reflexivity].
    rewrite Hclamp. reflexivity.
Qed.

(** ** The extraction of the count *)

Lemma extract_count_ok (r : string) (c : Z) :
  extract_count r = Ok c <->
  exists line field,
    Py.splitlines r !! 1%nat = Some line /\ Py.split " " line !! 1%nat = Some field
    /\ Py.int field = Ok c.
Proof.
  unfold extract_count, Py.index. split.
  - intros H. destruct (Py.splitlines r !! 1%nat) as [line|]; [|discriminate].
    simpl in H. destruct (Py.split " " line !! 1%nat) as [field|] eqn:Hf; [|discriminate].
    simpl in H. exists line, field. auto.
  - intros (line & field & -> & Hf & Hi). simpl. rewrite Hf. simpl. exact Hi.
Qed.

Lemma extract_count_err (r : string) (e : exn) :
  extract_count r = Err e <->
  (Py.splitlines r !! 1%nat = None /\ e = IndexError)
  \/ (exists line, Py.splitlines r !! 1%nat = Some line
                   /\ Py.split " " line !! 1%nat = None /\ e = IndexError)
  \/ (exists line field, Py.splitlines r !! 1%nat = Some line
                   /\ Py.split " " line !! 1%nat = Some field /\ Py.int field = Err e).
Proof.
  unfold extract_count, Py.index. split.
  - intros H. destruct (Py.splitlines r !! 1%nat) as [line|]; simpl in H.
    + destruct (Py.split " " line !! 1%nat) as [field|] eqn:Hf; simpl in H.
      * right. right. exists line, field. auto.
      * right. left. exists line. injection H as <-. auto.
    + left. injection H as <-. auto.
  - intros [[-> ->] | [(line & -> & Hf & ->) | (line & field & -> & Hf & Hi)]]; simpl.
    + reflexivity.
    + rewrite Hf. reflexivity.
    + rewrite Hf. exact Hi.
Qed.

(** ** Sequencing *)

Lemma bind_inv {A B : Type} (m : M A) (k : A -> M B) (σ σ' : state) (o : outcome B) :
  bind m k σ = (o, σ') ->
  (exists a σ1, m σ = (Done a, σ1) /\ k a σ1 = (o, σ'))
  \/ (exists e, m σ = (Raised e, σ') /\ o = Raised e)
  \/ (m σ = (Hang, σ') /\ o = Hang).
Proof.
  unfold bind. destruct (m σ) as [[a|e|] σ1]; intros H.
  - left. eauto.
  - right. left. injection H as <- <-. eauto.
  - right. right. injection H as <- <-. eauto.
Qed.

Lemma bind_done {A B : Type} (m : M A) (k : A -> M B) (σ σ' : state) (b : B) :
  bind m k σ = (Done b, σ') ->
  exists a σ1, m σ = (Done a, σ1) /\ k a σ1 = (Done b, σ').
Proof.
  intros H. apply bind_inv in H as [H | [(e & _ & H) | [_ H]]];
    [exact H | discriminate | discriminate].
Qed.

Lemma bind_eq_done {A B : Type} (m : M A) (k : A -> M B) (σ σ1 : state) (a : A) :
  m σ = (Done a, σ1) -> bind m k σ = k a σ1.
Proof. unfold bind. intros ->. reflexivity. Qed.

Lemma bind_eq_raised {A B : Type} (m : M A) (k : A -> M B) (σ σ1 : state) (e : exn) :
  m σ = (Raised e, σ1) -> bind m k σ = (Raised e, σ1).
Proof. unfold bind. intros ->. reflexivity. Qed.


Lemma lift_inv {A : Type} (r : result A) (σ σ' : state) (o : outcome A) :
  lift r σ = (o, σ') ->
  σ' = σ /\ ((exists a, r = Ok a /\ o = Done a) \/ (exists e, r = Err e /\ o = Raised e)).
Proof.
  unfold lift. destruct r as [a|e]; intros H; injection H as <- <-; eauto.
Qed.

(** ** What each step appends to the trace *)

Section Extends.

Variable P : event -> Prop.

Lemma extends_ret {A : Type} (a : A) : extends P (ret a).
Proof.
  intros σ o σ' H. injection H as <- <-. exists []. rewrite app_nil_r. auto.
Qed.

Lemma extends_lift {A : Type} (r : result A) : extends P (lift r).
Proof.
  intros σ o σ' H. apply lift_inv in H as [-> _]. exists []. rewrite app_nil_r. auto.
Qed.

Lemma extends_bind {A B : Type} (m : M A) (k : A -> M B) :
  extends P m -> (forall a, extends P (k a)) -> extends P (bind m k).
Proof.
  intros Hm Hk σ o σ' H.
  apply bind_inv in H as [(a & σ1 & H1 & H2) | [(e & H1 & _) | [H1 _]]].
  - destruct (Hm _ _ _ H1) as (t1 & E1 & F1).
    destruct (Hk a _ _ _ H2) as (t2 & E2 & F2).
    exists (t1 ++ t2). rewrite E2, E1, app_assoc. split; [reflexivity|].
    apply Forall_app. auto.
  - exact (Hm _ _ _ H1).
  - exact (Hm _ _ _ H1).
Qed.

Lemma extends_emit (e : event) : P e -> extends P (emit e).
Proof.
  intros He σ o σ' H. injection H as <- <-. exists [e]. simpl. auto.
Qed.

Lemma extends_for_each {A : Type} (f : A -> M unit) (l : list A) :
  (forall a, extends P (f a)) -> extends P (for_each f l).
Proof.
  intros Hf. induction l as [|a l IH]; simpl.
  - apply extends_ret.
  - apply extends_bind; auto.
Qed.

End Extends.

Lemma extends_start_command (input flags output coordinates : string)
    (kwargs : gmap string string) :
  extends is_launch (start_command input flags output coordinates kwargs).
Proof.
  intros σ o σ' H. injection H as <- <-. eexists. split; [reflexivity|].
  constructor; simpl; auto.
Qed.

Lemma extends_set_process (P : event -> Prop) (count : Z) (h : nat) :
  extends P (set_process count h).
Proof.
  intros σ o σ' H. injection H as <- <-. exists []. simpl. rewrite app_nil_r. auto.
Qed.

Lemma extends_get_process (P : event -> Prop) (k : Z) : extends P (get_process k).
Proof.
  intros σ o σ' H. unfold get_process in H.
  destruct (process σ !! k); injection H as <- <-; exists []; rewrite app_nil_r; auto.
Qed.

Lemma extends_wait_jobs (count : Z) (jobs : list Z) : extends is_launch (wait_jobs count jobs).
Proof.
  induction jobs as [|job jobs IH]; simpl.
  - apply extends_ret.
  - apply extends_bind; [apply extends_get_process|]. intros h.
    apply extends_bind; [apply extends_emit; exact I|]. intros _. exact IH.
Qed.

Lemma extends_submit (w : world) (workers : Z) (point : list string) :
  extends is_launch (submit w workers point).
Proof.
  unfold submit.
  apply extends_bind; [apply extends_lift|]. intros count.
  apply extends_bind; [apply extends_lift|]. intros x.
  apply extends_bind; [apply extends_lift|]. intros y.
  apply extends_bind; [apply extends_start_command|]. intros h.
  apply extends_bind; [apply extends_set_process|]. intros _.
  destruct (decide (count `mod` workers = 0)).
  - apply extends_wait_jobs.
  - apply extends_ret.
Qed.

Lemma extends_submit_all (w : world) (workers : Z) (pointList : list (list string)) :
  extends is_launch (submit_all w workers pointList).
Proof. apply extends_for_each. intros point. apply extends_submit. Qed.

Lemma extends_lookup_file (w : world) (name : string) : extends is_poll (lookup_file w name).
Proof.
  intros σ o σ' H. injection H as <- <-. eexists. split; [reflexivity|].
  constructor; simpl; auto.
Qed.

Lemma extends_poll (w : world) (fuel : nat) (name : string) : extends is_poll (poll w fuel name).
Proof.
  induction fuel as [|fuel IH]; simpl.
  - intros σ o σ' H. injection H as <- <-. exists []. rewrite app_nil_r. auto.
  - apply extends_bind; [apply extends_lookup_file|]. intros [|].
    + apply extends_ret.
    + exact IH.
Qed.

Lemma extends_collect (w : world) (fuel : nat) (pointList : list (list string)) (viewsh : nat) :
  extends is_poll (collect w fuel pointList viewsh).
Proof.
  unfold collect, read_stats.
  apply extends_bind; [apply extends_poll|]. intros _.
  apply extends_bind.
  { apply extends_bind; [apply extends_emit; exact I|]. intros _. apply extends_ret. }
  intros viewshStats.
  apply extends_bind; [apply extends_lift|]. intros point.
  apply extends_bind; [apply extends_lift|]. intros x.
  apply extends_bind; [apply extends_lift|]. intros y.
  apply extends_bind; [apply extends_lift|]. intros n.
  apply extends_ret.
Qed.

Lemma extends_collect_all (w : world) (fuel : nat) (pointList : list (list string))
    (positions : list nat) :
  extends is_poll (collect_all w fuel pointList positions).
Proof.
  induction positions as [|viewsh positions IH]; simpl.
  - apply extends_ret.
  - apply extends_bind; [apply extends_collect|]. intros d.
    apply extends_bind; [exact IH|]. intros ds. apply extends_ret.
Qed.

Lemma extends_weaken (P Q : event -> Prop) {A : Type} (m : M A) :
  (forall e, P e -> Q e) -> extends P m -> extends Q m.
Proof.
  intros HPQ Hm σ o σ' H. destruct (Hm _ _ _ H) as (t & E & F).
  exists t. split; [exact E|]. eapply Forall_impl; eauto.
Qed.

Lemma extends_poll_find (w : world) (fuel : nat) (name : string) :
  extends is_find (poll w fuel name).
Proof.
  induction fuel as [|fuel IH]; simpl.
  - intros σ o σ' H. injection H as <- <-. exists []. rewrite app_nil_r. auto.
  - apply extends_bind.
    + intros σ o σ' H. injection H as <- <-. eexists. split; [reflexivity|].
      constructor; simpl; auto.
    + intros [|]; [apply extends_ret | exact IH].
Qed.

Lemma stats_names_app (t1 t2 : list event) :
  stats_names (t1 ++ t2) = stats_names t1 ++ stats_names t2.
Proof. apply omap_app. Qed.

Lemma started_outputs_app (t1 t2 : list event) :
  started_outputs (t1 ++ t2) = started_outputs t1 ++ started_outputs t2.
Proof. apply omap_app. Qed.

Lemma rasterized_app (t1 t2 : list event) :
  rasterized (t1 ++ t2) = rasterized t1 ++ rasterized t2.
Proof. apply omap_app. Qed.

Lemma stats_names_find (t : list event) : Forall is_find t -> stats_names t = [].
Proof.
  induction 1 as [|e t He _ IH]; [reflexivity|].
  destruct e; try contradiction. exact IH.
Qed.

Lemma stats_names_launch (t : list event) : Forall is_launch t -> stats_names t = [].
Proof.
  induction 1 as [|e t He _ IH]; [reflexivity|].
  destruct e; try contradiction; exact IH.
Qed.

Lemma started_outputs_poll (t : list event) : Forall is_poll t -> started_outputs t = [].
Proof.
  induction 1 as [|e t He _ IH]; [reflexivity|].
  destruct e; try contradiction; exact IH.
Qed.

Lemma rasterized_quiet (t : list event) :
  Forall (fun e => ~ is_output e) t -> rasterized t = [].
Proof.
  induction 1 as [|e t He _ IH]; [reflexivity|].
  destruct e; simpl in He; try (exfalso; apply He; exact I); exact IH.
Qed.

Lemma launch_not_output (e : event) : is_launch e -> ~ is_output e.
Proof. destruct e; simpl; tauto. Qed.

Lemma poll_not_output (e : event) : is_poll e -> ~ is_output e.
Proof. destruct e; simpl; tauto. Qed.

(** ** The polling loop *)

Lemma poll_never_raises (w : world) (fuel : nat) (name : string) (σ σ' : state) (e : exn) :
  poll w fuel name σ <> (Raised e, σ').
Proof.
  revert σ. induction fuel as [|fuel IH]; simpl; intros σ; [discriminate|].
  unfold bind, lookup_file.
  destruct (find_file w (lookups σ) name); [discriminate|]. apply IH.
Qed.

Lemma poll_lookups (w : world) (fuel : nat) (name : string) (σ σ' : state) (o : outcome unit) :
  poll w fuel name σ = (o, σ') ->
  process σ' = process σ /\ spawned σ' = spawned σ /\ (lookups σ <= lookups σ')%nat.
Proof.
  revert σ. induction fuel as [|fuel IH]; simpl; intros σ H.
  - injection H as <- <-. auto.
  - unfold bind, lookup_file in H.
    destruct (find_file w (lookups σ) name).
    + injection H as <- <-. simpl. auto.
    + apply IH in H as (Hp & Hs & Hl). simpl in *. repeat split; auto; lia.
Qed.

(** The loop ends only on a positive answer. *)
Lemma poll_done_found (w : world) (fuel : nat) (name : string) (σ σ' : state) :
  poll w fuel name σ = (Done tt, σ') ->
  exists t, (lookups σ <= t)%nat /\ find_file w t name = true.
Proof.
  revert σ. induction fuel as [|fuel IH]; simpl; intros σ H; [discriminate|].
  unfold bind, lookup_file in H.
  destruct (find_file w (lookups σ) name) eqn:Hf.
  - exists (lookups σ). auto.
  - apply IH in H as (t & Hle & Ht). simpl in Hle. exists t. split; [lia|exact Ht].
Qed.




(** ** The aggregation loop *)

Ltac lift_done H a Ha :=
  let σ := fresh "σ" in
  let Hl := fresh "Hl" in
  let e := fresh "e" in
  apply bind_done in H as (a & σ & Hl & H);
  apply lift_inv in Hl as [-> [(? & Ha & [= <-]) | (e & _ & [=])]].

Lemma collect_done (w : world) (fuel : nat) (pointList : list (list string))
    (viewsh : nat) (σ σ' : state) (row : float * float * Z) :
  collect w fuel pointList viewsh σ = (Done row, σ') ->
  row_at w pointList viewsh = Ok row
  /\ (exists t, (lookups σ <= t)%nat
                /\ find_file w t (artifact_name (Z.of_nat viewsh + 1)) = true)
  /\ (lookups σ <= lookups σ')%nat
  /\ exists t, trace σ' = trace σ ++ t /\ Forall is_poll t
               /\ stats_names t = [artifact_name (Z.of_nat viewsh + 1)].
Proof.
  unfold collect. intros H.
  apply bind_done in H as ([] & σ1 & Hp & H).
  apply bind_done in H as (viewshStats & σ2 & Hr & H).
  unfold read_stats, bind, emit, ret in Hr. injection Hr as <- <-.
  lift_done H point Hpoint. lift_done H x Hx. lift_done H y Hy. lift_done H n Hn.
  injection H as <- <-.
  split; [|split; [|split]].
  - unfold row_at. rewrite Hpoint. simpl. rewrite Hx. simpl. rewrite Hy. simpl.
    rewrite Hn. reflexivity.
  - eapply poll_done_found; eauto.
  - simpl. eapply poll_lookups; eauto.
  - destruct (extends_poll_find _ _ _ _ _ _ Hp) as (t & E & F).
    exists (t ++ [EStats (artifact_name (Z.of_nat viewsh + 1))]). simpl.
    rewrite E, app_assoc. split; [reflexivity|]. split.
    + apply Forall_app. split.
      * eapply Forall_impl; [exact F|]. intros []; simpl; tauto.
      * constructor; simpl; auto.
    + rewrite stats_names_app, (stats_names_find _ F). reflexivity.
Qed.

Lemma collect_all_done (w : world) (fuel : nat) (pointList : list (list string))
    (positions : list nat) (σ σ' : state) (rows : list (float * float * Z)) :
  collect_all w fuel pointList positions σ = (Done rows, σ') ->
  Ok <$> rows = row_at w pointList <$> positions
  /\ Forall (fun viewsh =>
       exists t, find_file w t (artifact_name (Z.of_nat viewsh + 1)) = true) positions
  /\ exists t, trace σ' = trace σ ++ t /\ Forall is_poll t
               /\ stats_names t
                  = (fun viewsh => artifact_name (Z.of_nat viewsh + 1)) <$> positions.
Proof.
  revert σ rows. induction positions as [|viewsh positions IH]; simpl; intros σ rows H.
  - injection H as <- <-. repeat split; auto.
    exists []. rewrite app_nil_r. auto.
  - apply bind_done in H as (d & σ1 & Hd & H).
    apply bind_done in H as (ds & σ2 & Hds & H).
    injection H as <- <-.
    apply collect_done in Hd as (Hrow & (t0 & _ & Hfound) & _ & (t1 & E1 & F1 & S1)).
    apply IH in Hds as (Hrows & Hall & (t2 & E2 & F2 & S2)).
    split; [|split].
    + csimpl. rewrite Hrow, Hrows. reflexivity.
    + constructor; eauto.
    + exists (t1 ++ t2). rewrite E2, E1, app_assoc. split; [reflexivity|]. split.
      * apply Forall_app. auto.
      * rewrite stats_names_app, S1, S2. reflexivity.
Qed.

Lemma row_at_ok (w : world) (pointList : list (list string)) (viewsh : nat)
    (x y : float) (n : Z) :
  row_at w pointList viewsh = Ok (x, y, n) ->
  exists point,
    pointList !! viewsh = Some point
    /\ rbind (Py.index point 0) py_float = Ok x
    /\ rbind (Py.index point 1) py_float = Ok y
    /\ extract_count (r_stats w (artifact_name (Z.of_nat viewsh + 1))) = Ok n.
Proof.
  unfold row_at, Py.index at 1. intros H.
  destruct (pointList !! viewsh) as [point|]; [|discriminate]. simpl in H.
  destruct (rbind (Py.index point 0) py_float) as [x'|] eqn:Hx; [|discriminate].
  simpl in H.
  destruct (rbind (Py.index point 1) py_float) as [y'|] eqn:Hy; [|discriminate].
  simpl in H.
  destruct (extract_count _) as [n'|] eqn:Hn; [|discriminate]. simpl in H.
  injection H as <- <- <-. exists point. auto.
Qed.

(** The rows of a finished aggregation, position by position. *)
Lemma rows_lookup (w : world) (pointList : list (list string)) (positions : list nat)
    (rows : list (float * float * Z)) :
  Ok <$> rows = row_at w pointList <$> positions ->
  length rows = length positions
  /\ forall i viewsh, positions !! i = Some viewsh ->
       exists row, rows !! i = Some row /\ row_at w pointList viewsh = Ok row.
Proof.
  intros H. split.
  - rewrite <- (length_fmap Ok rows), H, length_fmap. reflexivity.
  - intros i viewsh Hi.
    assert (Hl : (Ok <$> rows) !! i = Some (row_at w pointList viewsh))
      by (rewrite H, list_lookup_fmap, Hi; reflexivity).
    rewrite list_lookup_fmap in Hl.
    destruct (rows !! i) as [row|]; [|discriminate].
    exists row. simpl in Hl. split; [reflexivity|congruence].
Qed.

(** ** Computations that do not look at the trace *)

Lemma after_app (t0 : list event) (σ : state) (t : list event) :
  {| process := process σ; spawned := spawned σ; lookups := lookups σ;
     trace := trace (after t0 σ) ++ t |}
  = after t0 {| process := process σ; spawned := spawned σ; lookups := lookups σ;
                trace := trace σ ++ t |}.
Proof. unfold after. simpl. rewrite app_assoc. reflexivity. Qed.

Lemma trace_blind_ret {A : Type} (a : A) : trace_blind (ret a).
Proof. intros t0 σ. reflexivity. Qed.

Lemma trace_blind_lift {A : Type} (r : result A) : trace_blind (lift r).
Proof. intros t0 σ. destruct r; reflexivity. Qed.

Lemma trace_blind_bind {A B : Type} (m : M A) (k : A -> M B) :
  trace_blind m -> (forall a, trace_blind (k a)) -> trace_blind (bind m k).
Proof.
  intros Hm Hk t0 σ. unfold bind. rewrite Hm.
  destruct (m σ) as [[a|e|] σ1]; simpl; [apply Hk|reflexivity|reflexivity].
Qed.

Lemma trace_blind_emit (e : event) : trace_blind (emit e).
Proof. intros t0 σ. unfold emit. simpl. rewrite <- after_app. reflexivity. Qed.

Lemma trace_blind_start_command (input flags output coordinates : string)
    (kwargs : gmap string string) :
  trace_blind (start_command input flags output coordinates kwargs).
Proof.
  intros t0 σ. unfold start_command, after. simpl. rewrite app_assoc. reflexivity.
Qed.

Lemma trace_blind_set_process (count : Z) (h : nat) : trace_blind (set_process count h).
Proof. intros t0 σ. reflexivity. Qed.

Lemma trace_blind_get_process (k : Z) : trace_blind (get_process k).
Proof.
  intros t0 σ. unfold get_process. simpl. destruct (process σ !! k); reflexivity.
Qed.

Lemma trace_blind_wait_jobs (count : Z) (jobs : list Z) : trace_blind (wait_jobs count jobs).
Proof.
  induction jobs as [|job jobs IH]; simpl; [apply trace_blind_ret|].
  apply trace_blind_bind; [apply trace_blind_get_process|]. intros h.
  apply trace_blind_bind; [apply trace_blind_emit|]. intros _. exact IH.
Qed.

Lemma trace_blind_submit (w : world) (workers : Z) (point : list string) :
  trace_blind (submit w workers point).
Proof.
  unfold submit.
  apply trace_blind_bind; [apply trace_blind_lift|]. intros count.
  apply trace_blind_bind; [apply trace_blind_lift|]. intros x.
  apply trace_blind_bind; [apply trace_blind_lift|]. intros y.
  apply trace_blind_bind; [apply trace_blind_start_command|]. intros h.
  apply trace_blind_bind; [apply trace_blind_set_process|]. intros _.
  destruct (decide (count `mod` workers = 0));
    [apply trace_blind_wait_jobs|apply trace_blind_ret].
Qed.

Lemma trace_blind_submit_all (w : world) (workers : Z) (pointList : list (list string)) :
  trace_blind (submit_all w workers pointList).
Proof.
  unfold submit_all. induction pointList as [|point pointList IH]; simpl;
    [apply trace_blind_ret|].
  apply trace_blind_bind; [apply trace_blind_submit|]. intros _. exact IH.
Qed.

Lemma trace_blind_lookup_file (w : world) (name : string) : trace_blind (lookup_file w name).
Proof.
  intros t0 σ. unfold lookup_file, after. simpl. rewrite app_assoc. reflexivity.
Qed.

Lemma trace_blind_poll (w : world) (fuel : nat) (name : string) :
  trace_blind (poll w fuel name).
Proof.
  induction fuel as [|fuel IH]; simpl; [intros t0 σ; reflexivity|].
  apply trace_blind_bind; [apply trace_blind_lookup_file|]. intros [|];
    [apply trace_blind_ret|exact IH].
Qed.

Lemma trace_blind_collect (w : world) (fuel : nat) (pointList : list (list string))
    (viewsh : nat) :
  trace_blind (collect w fuel pointList viewsh).
Proof.
  unfold collect, read_stats.
  apply trace_blind_bind; [apply trace_blind_poll|]. intros _.
  apply trace_blind_bind.
  { apply trace_blind_bind; [apply trace_blind_emit|]. intros _. apply trace_blind_ret. }
  intros viewshStats.
  apply trace_blind_bind; [apply trace_blind_lift|]. intros point.
  apply trace_blind_bind; [apply trace_blind_lift|]. intros x.
  apply trace_blind_bind; [apply trace_blind_lift|]. intros y.
  apply trace_blind_bind; [apply trace_blind_lift|]. intros n.
  apply trace_blind_ret.
Qed.

Lemma trace_blind_collect_all (w : world) (fuel : nat) (pointList : list (list string))
    (positions : list nat) :
  trace_blind (collect_all w fuel pointList positions).
Proof.
  induction positions as [|viewsh positions IH]; simpl; [apply trace_blind_ret|].
  apply trace_blind_bind; [apply trace_blind_collect|]. intros d.
  apply trace_blind_bind; [exact IH|]. intros ds. apply trace_blind_ret.
Qed.

(** What a computation does after the calls [t0] is what it does
    without them. *)
Lemma trace_blind_inv {A : Type} (m : M A) (t0 : list event) (σ σ' : state)
    (o : outcome A) :
  trace_blind m -> m (after t0 σ) = (o, σ') ->
  exists σ1, m σ = (o, σ1) /\ σ' = after t0 σ1.
Proof.
  intros Hm H. rewrite Hm in H. injection H as <- <-.
  exists (m σ).2. split; [destruct (m σ); reflexivity|reflexivity].
Qed.

Lemma trace_blind_eq {A : Type} (m : M A) (t0 : list event) (σ σ1 : state)
    (o : outcome A) :
  trace_blind m -> m σ = (o, σ1) -> m (after t0 σ) = (o, after t0 σ1).
Proof. intros Hm H. rewrite Hm, H. reflexivity. Qed.

(** ** The whole run *)

Lemma initial_trace : trace initial = [].
Proof. reflexivity. Qed.

(** After the reading of the listing, [main] goes on from the state
    [listed]. *)
Lemma run_listed (w : world) (fuel : nat) :
  run w fuel
  = (workers <- lift (resolve_workers (cpu_count w) (environ_WORKERS w)) ;;
     submit_all w workers (parse_points (v_out_ascii w)) ;;;
     totViewshData <- collect_all w fuel (parse_points (v_out_ascii w))
                        (seq 0 (length (parse_points (v_out_ascii w)))) ;;
     to_rast w totViewshData ;;;
     remove w "raster" "tempViewsh*" ;;;
     remove w "vector" "tempVect") (listed w).
Proof. reflexivity. Qed.

(** A run that returns went through the three phases. *)
Lemma run_done (w : world) (fuel : nat) (σ' : state) :
  run w fuel = (Done tt, σ') ->
  exists W σ1 rows σ2,
    resolve_workers (cpu_count w) (environ_WORKERS w) = Ok W
    /\ submit_all w W (parse_points (v_out_ascii w)) initial = (Done tt, σ1)
    /\ collect_all w fuel (parse_points (v_out_ascii w))
         (seq 0 (length (parse_points (v_out_ascii w)))) σ1 = (Done rows, σ2)
    /\ trace σ' = EOutAscii (options w "vect") :: trace σ2 ++ closing_events w rows.
Proof.
  rewrite run_listed. intros H.
  lift_done H W HW.
  apply bind_done in H as ([] & σ1' & Hs & H).
  apply bind_done in H as (rows & σ2' & Hc & H).
  apply trace_blind_inv in Hs as (σ1 & Hs & ->); [|apply trace_blind_submit_all].
  apply trace_blind_inv in Hc as (σ2 & Hc & ->); [|apply trace_blind_collect_all].
  unfold to_rast, remove, bind, emit in H. injection H as <-.
  exists W, σ1, rows, σ2. repeat split; auto.
  simpl. rewrite <- !app_assoc. reflexivity.
Qed.

(** A run that does not return stopped in the first two loops. *)
Lemma run_stopped (w : world) (fuel : nat) (o : outcome unit) (σ' : state) :
  run w fuel = (o, σ') -> o <> Done tt ->
  exists t, trace σ' = EOutAscii (options w "vect") :: t
            /\ Forall (fun e => is_launch e \/ is_poll e) t.
Proof.
  rewrite run_listed. intros H Ho.
  apply bind_inv in H as [(W & σ0 & Hl & H) | [(e & Hl & _) | [Hl _]]];
    [apply lift_inv in Hl as [-> _]
    | apply lift_inv in Hl as [-> _]; exists []; split; [reflexivity|constructor]
    | apply lift_inv in Hl as [-> _]; exists []; split; [reflexivity|constructor]].
  assert (Hsub : forall o1 σ1,
             submit_all w W (parse_points (v_out_ascii w)) (listed w) = (o1, σ1) ->
             exists t, trace σ1 = EOutAscii (options w "vect") :: t
                       /\ Forall (fun e => is_launch e \/ is_poll e) t).
  { intros o1 σ1 H1. destruct (extends_submit_all _ _ _ _ _ _ H1) as (t & E & F).
    exists t. rewrite E. split; [reflexivity|]. eapply Forall_impl; [exact F|]. auto. }
  apply bind_inv in H as [([] & σ1 & Hs & H) | [(e & Hs & _) | [Hs _]]]; eauto.
  assert (Hcol : forall o2 σ2,
             collect_all w fuel (parse_points (v_out_ascii w))
               (seq 0 (length (parse_points (v_out_ascii w)))) σ1 = (o2, σ2) ->
             exists t, trace σ2 = EOutAscii (options w "vect") :: t
                       /\ Forall (fun e => is_launch e \/ is_poll e) t).
  { intros o2 σ2 H2. destruct (extends_collect_all _ _ _ _ _ _ _ H2) as (t & E & F).
    destruct (Hsub _ _ Hs) as (t1 & E1 & F1).
    exists (t1 ++ t). rewrite E, E1. split; [reflexivity|].
    apply Forall_app. split; [exact F1|].
    eapply Forall_impl; [exact F|]. auto. }
  apply bind_inv in H as [(rows & σ2 & Hc & H) | [(e & Hc & _) | [Hc _]]]; eauto.
  unfold to_rast, remove, bind, emit in H. injection H as <- _. contradiction.
Qed.

Lemma names_seqZ (N : nat) :
  (fun viewsh => artifact_name (Z.of_nat viewsh + 1)) <$> seq 0 N
  = artifact_name <$> seqZ 1 (Z.of_nat N).
Proof.
  unfold seqZ. rewrite Nat2Z.id, <- list_fmap_compose.
  apply list_fmap_ext. intros i x _. simpl. f_equal; lia.
Qed.

(** The reading of the listing starts no process, summarizes and
    converts nothing. *)
Lemma rasterized_listing (input : string) (t : list event) :
  rasterized (EOutAscii input :: t) = rasterized t.
Proof. reflexivity. Qed.

Lemma stats_names_listing (input : string) (t : list event) :
  stats_names (EOutAscii input :: t) = stats_names t.
Proof. reflexivity. Qed.

Lemma started_outputs_listing (input : string) (t : list event) :
  started_outputs (EOutAscii input :: t) = started_outputs t.
Proof. reflexivity. Qed.

Lemma running_listing (input : string) (t : list event) :
  running (EOutAscii input :: t) = running t.
Proof. reflexivity. Qed.

(** The shape of the trace of a run that returns. *)
Lemma run_done_trace (w : world) (fuel : nat) (σ' : state) :
  run w fuel = (Done tt, σ') ->
  exists W σ1 rows t,
    resolve_workers (cpu_count w) (environ_WORKERS w) = Ok W
    /\ submit_all w W (parse_points (v_out_ascii w)) initial = (Done tt, σ1)
    /\ Forall is_launch (trace σ1) /\ Forall is_poll t
    /\ trace σ' = EOutAscii (options w "vect") :: trace σ1 ++ t ++ closing_events w rows
    /\ stats_names t
       = (fun viewsh => artifact_name (Z.of_nat viewsh + 1))
           <$> seq 0 (length (parse_points (v_out_ascii w)))
    /\ Ok <$> rows
       = row_at w (parse_points (v_out_ascii w))
           <$> seq 0 (length (parse_points (v_out_ascii w)))
    /\ Forall (fun viewsh =>
         exists k, find_file w k (artifact_name (Z.of_nat viewsh + 1)) = true)
         (seq 0 (length (parse_points (v_out_ascii w)))).
Proof.
  intros H. apply run_done in H as (W & σ1 & rows & σ2 & HW & Hs & Hc & E).
  apply collect_all_done in Hc as (Hrows & Hfound & (t & E2 & F2 & S2)).
  exists W, σ1, rows, t. repeat split; auto.
  - destruct (extends_submit_all _ _ _ _ _ _ Hs) as (t1 & E1 & F1).
    rewrite E1. exact F1.
  - rewrite E, E2, <- app_assoc. reflexivity.
Qed.

Lemma run_done_rasterized (w : world) (fuel : nat) (σ' : state) :
  run w fuel = (Done tt, σ') ->
  exists rows,
    rasterized (trace σ') = [rows]
    /\ Ok <$> rows
       = row_at w (parse_points (v_out_ascii w))
           <$> seq 0 (length (parse_points (v_out_ascii w))).
Proof.
  intros H. apply run_done_trace in H as (W & σ1 & rows & t & _ & _ & F1 & F2 & E & _ & Hr & _).
  exists rows. split; [|exact Hr].
  rewrite E, rasterized_listing, !rasterized_app.
  rewrite (rasterized_quiet (trace σ1)), (rasterized_quiet t); [reflexivity| |].
  - eapply Forall_impl; [exact F2|]. apply poll_not_output.
  - eapply Forall_impl; [exact F1|]. apply launch_not_output.
Qed.

Lemma run_stopped_quiet (w : world) (fuel : nat) (o : outcome unit) (σ' : state) :
  run w fuel = (o, σ') -> o <> Done tt -> Forall (fun e => ~ is_output e) (trace σ').
Proof.
  intros H Ho. destruct (run_stopped _ _ _ _ H Ho) as (t & -> & F).
  constructor; [intros []|]. eapply Forall_impl; [exact F|].
  intros e [He|He]; [apply launch_not_output | apply poll_not_output]; exact He.
Qed.

(** ** Failures, output and cleanup *)

(** C9 (as amended): a run that dies of an exception converts nothing
    to raster, exits with status 1 and removes nothing; the conversion
    and the two removals are made only at the end of a run that
    returns, and there the statuses they return are dropped: whatever
    they are, the run exits with status 0. *)
Theorem cleanup_only_after_success (w : world) (fuel : nat) (o : outcome unit) (σ' : state) :
  run w fuel = (o, σ') ->
  match o with
  | Done _ =>
      exit_code o = Some 0
      /\ exists t rows, trace σ' = t ++ closing_events w rows
                        /\ Forall (fun e => ~ is_output e) t
  | Raised _ => exit_code o = Some 1 /\ Forall (fun e => ~ is_output e) (trace σ')
  | Hang => exit_code o = None /\ Forall (fun e => ~ is_output e) (trace σ')
  end.
Proof.
  intros H. destruct o as [[]|e|].
  - split; [reflexivity|].
    apply run_done_trace in H as (W & σ1 & rows & t & _ & _ & F1 & F2 & E & _).
    exists (EOutAscii (options w "vect") :: trace σ1 ++ t), rows.
    rewrite E, app_assoc. split; [reflexivity|].
    constructor; [intros []|]. apply Forall_app. split.
    + eapply Forall_impl; [exact F1|]. apply launch_not_output.
    + eapply Forall_impl; [exact F2|]. apply poll_not_output.
  - split; [reflexivity|]. eapply run_stopped_quiet; [exact H|discriminate].
  - split; [reflexivity|]. eapply run_stopped_quiet; [exact H|discriminate].
Qed.

(** ** The recorded counts *)

Lemma run_done_row (w : world) (fuel : nat) (σ' : state) (viewsh : nat) :
  run w fuel = (Done tt, σ') ->
  (viewsh < length (parse_points (v_out_ascii w)))%nat ->
  exists rows row,
    rasterized (trace σ') = [rows] /\ rows !! viewsh = Some row
    /\ row_at w (parse_points (v_out_ascii w)) viewsh = Ok row.
Proof.
  intros H Hlt. apply run_done_rasterized in H as (rows & Hr & Hrows).
  apply rows_lookup in Hrows as [_ Hrows].
  destruct (Hrows viewsh viewsh) as (row & Hrow & Hat).
  { apply lookup_seq. split; [reflexivity|exact Hlt]. }
  exists rows, row. auto.
Qed.

(** C7 (as amended): the extraction reads the second field of the
    second line of the report, whatever category that line is for.
    It fails exactly when the report has fewer than two lines, or when
    the second line has fewer than two space-separated fields, or when
    its second field is not an integer numeral; a run in which the
    report of one of the jobs fails in this way never returns and
    converts nothing to raster, and the aggregation step of that job
    raises the error once its raster is found and its coordinates are
    converted. *)
Theorem extraction_is_positional (w : world) (fuel : nat) :
  (forall r, is_ok (extract_count r) = false <->
     Py.splitlines r !! 1%nat = None
     \/ exists line, Py.splitlines r !! 1%nat = Some line
          /\ (Py.split " " line !! 1%nat = None
              \/ exists field, Py.split " " line !! 1%nat = Some field
                               /\ is_ok (Py.int field) = false))
  /\ (forall viewsh e o σ',
        (viewsh < length (parse_points (v_out_ascii w)))%nat ->
        extract_count (r_stats w (artifact_name (Z.of_nat viewsh + 1))) = Err e ->
        run w fuel = (o, σ') ->
        o <> Done tt /\ rasterized (trace σ') = [])
  /\ (forall pointList viewsh point x y e σ σ1,
        poll w fuel (artifact_name (Z.of_nat viewsh + 1)) σ = (Done tt, σ1) ->
        pointList !! viewsh = Some point ->
        rbind (Py.index point 0) py_float = Ok x ->
        rbind (Py.index point 1) py_float = Ok y ->
        extract_count (r_stats w (artifact_name (Z.of_nat viewsh + 1))) = Err e ->
        fst (collect w fuel pointList viewsh σ) = Raised e).
Proof.
  split; [|split].
  - intros r. destruct (extract_count r) as [c|e] eqn:H; simpl.
    + split; [discriminate|].
      apply extract_count_ok in H as (line & field & Hl & Hf & Hi).
      intros [Hn | (line' & Hl' & [Hn | (field' & Hf' & Hi')])].
      * congruence.
      * assert (line' = line) as -> by congruence. congruence.
      * assert (line' = line) as -> by congruence.
        assert (field' = field) as -> by congruence.
        rewrite Hi in Hi'. discriminate.
    + split; [|reflexivity]. intros _.
      apply extract_count_err in H as [[Hn _] | [(line & Hl & Hn & _) | (line & field & Hl & Hf & Hi)]].
      * left. exact Hn.
      * right. exists line. auto.
      * right. exists line. split; [exact Hl|]. right. exists field.
        rewrite Hi. auto.
  - intros viewsh e o σ' Hlt He H.
    assert (Ho : o <> Done tt).
    { intros ->. destruct (run_done_row _ _ _ _ H Hlt) as (rows & [[x y] n] & _ & _ & Hat).
      apply row_at_ok in Hat as (point & _ & _ & _ & Hn). congruence. }
    split; [exact Ho|].
    apply rasterized_quiet. eapply run_stopped_quiet; eauto.
  - intros pointList viewsh point x y e σ σ1 Hp Hpt Hx Hy He.
    unfold collect. rewrite (bind_eq_done _ _ _ _ _ Hp).
    unfold read_stats, bind, emit, ret, lift, Py.index at 1. simpl.
    rewrite Hpt, Hx, Hy, He. reflexivity.
Qed.

(** C8 (as amended): on a run that returns, every recorded count is
    the integer read from the second space-separated field of the
    second line of that job's report; it is non-negative whenever that
    field is an unsigned numeral, and it is 0, without any error, when
    that field is the numeral 0. *)
Theorem counts_read_from_second_row (w : world) (fuel : nat) (σ' : state) :
  run w fuel = (Done tt, σ') ->
  exists rows,
    rasterized (trace σ') = [rows]
    /\ forall viewsh x y c, rows !! viewsh = Some (x, y, c) ->
         exists line field,
           Py.splitlines (r_stats w (artifact_name (Z.of_nat viewsh + 1))) !! 1%nat
             = Some line
           /\ Py.split " " line !! 1%nat = Some field
           /\ Py.int field = Ok c
           /\ (unsigned_numeral field = true -> 0 <= c)
           /\ (field = "0" -> c = 0).
Proof.
  intros H. apply run_done_rasterized in H as (rows & Hr & Hrows).
  exists rows. split; [exact Hr|].
  intros viewsh x y c Hrow.
  apply rows_lookup in Hrows as [Hlen Hrows].
  destruct (Hrows viewsh viewsh) as (row & Hrow' & Hat).
  { apply lookup_seq. split; [reflexivity|].
    apply lookup_lt_Some in Hrow. rewrite Hlen, length_seq in Hrow. exact Hrow. }
  assert (row = (x, y, c)) as -> by congruence.
  apply row_at_ok in Hat as (point & _ & _ & _ & Hn).
  apply extract_count_ok in Hn as (line & field & Hl & Hf & Hi).
  exists line, field. repeat split; auto.
  - intros Hu. destruct (int_unsigned _ Hu) as (v & Hv & Hpos). congruence.
  - intros ->. vm_compute in Hi. congruence.
Qed.

(** ** The result sequence *)

Lemma fmap_Ok_inj {A : Type} (l1 l2 : list A) : Ok <$> l1 = Ok <$> l2 -> l1 = l2.
Proof.
  revert l2. induction l1 as [|a l1 IH]; intros [|b l2] H; try discriminate; auto.
  csimpl in H. injection H as -> H. f_equal. auto.
Qed.

Lemma row_at_timing (w w' : world) (pointList : list (list string)) (viewsh : nat) :
  r_stats w = r_stats w' -> row_at w pointList viewsh = row_at w' pointList viewsh.
Proof. unfold row_at. intros ->. reflexivity. Qed.


(** ** The submission loop *)

Lemma started_outputs_wait (t : list event) : Forall is_wait t -> started_outputs t = [].
Proof.
  induction 1 as [|e t He _ IH]; [reflexivity|].
  destruct e; try contradiction; exact IH.
Qed.

Lemma point_count_err (p : list string) (e : exn) :
  point_count p = Err e <->
  ((length p < 3)%nat /\ e = IndexError)
  \/ (exists f, p !! 2%nat = Some f /\ Py.int f = Err e).
Proof.
  unfold point_count, Py.index.
  destruct (p !! 2%nat) as [f|] eqn:Hf; simpl.
  - split.
    + intros H. right. exists f. auto.
    + intros [[Hlen _] | (f' & Hf' & Hi)].
      * apply lookup_lt_Some in Hf. lia.
      * congruence.
  - split.
    + intros [= <-]. left. apply lookup_ge_None in Hf. split; [lia|reflexivity].
    + intros [[_ ->] | (f' & Hf' & _)]; [reflexivity|discriminate].
Qed.

Lemma point_count_fields (p : list string) (c : Z) :
  point_count p = Ok c ->
  exists x y, p !! 0%nat = Some x /\ p !! 1%nat = Some y.
Proof.
  unfold point_count, Py.index. intros H.
  destruct p as [|x [|y [|f p]]]; try discriminate. eauto.
Qed.

Lemma wait_jobs_inv (count : Z) (jobs : list Z) (σ σ' : state) (o : outcome unit) :
  wait_jobs count jobs σ = (o, σ') ->
  process σ' = process σ /\ spawned σ' = spawned σ /\ lookups σ' = lookups σ
  /\ exists t, trace σ' = trace σ ++ t /\ Forall is_wait t.
Proof.
  revert σ. induction jobs as [|job jobs IH]; simpl; intros σ H.
  - injection H as <- <-. repeat split; auto. exists []. rewrite app_nil_r. auto.
  - unfold bind at 1, get_process in H.
    destruct (process σ !! (count - job)) as [h|].
    + unfold bind, wait, emit in H.
      apply IH in H as (Hp & Hs & Hl & (t & E & F)). simpl in *.
      repeat split; auto. exists (EWait h :: t). rewrite E, <- app_assoc.
      split; [reflexivity|]. constructor; simpl; auto.
    + injection H as <- <-. repeat split; auto. exists []. rewrite app_nil_r. auto.
Qed.

(** One turn of the submission loop: either the third field of the
    line cannot be read, and nothing happens, or the job is started and
    entered in the dictionary, and only waits follow. *)
Lemma submit_inv (w : world) (W : Z) (point : list string) (σ σ' : state) (o : outcome unit) :
  submit w W point σ = (o, σ') ->
  (exists e, point_count point = Err e /\ o = Raised e /\ σ' = σ)
  \/ (exists c t,
        point_count point = Ok c
        /\ process σ' = <[c := spawned σ]> (process σ)
        /\ spawned σ' = S (spawned σ) /\ lookups σ' = lookups σ
        /\ trace σ' = trace σ ++ job_start w (spawned σ) c point :: t
        /\ Forall is_wait t).
Proof.
  unfold submit. intros H.
  destruct (point_count point) as [c|e] eqn:Hc.
  - right. destruct (point_count_fields _ _ Hc) as (x & y & Hx & Hy).
    unfold bind at 1, lift at 1 in H.
    unfold Py.index in H. rewrite Hx, Hy in H.
    unfold bind at 1, lift at 1 in H. unfold bind at 1, lift at 1 in H.
    unfold bind at 1, start_command in H. unfold bind at 1, set_process in H.
    assert (Hjs : EStart (spawned σ) (options w "rast") (flagstring w +:+ "b")
                         (artifact_name c) (x +:+ "," +:+ y) (viewshed_options (options w))
                  = job_start w (spawned σ) c point)
      by (unfold job_start; rewrite Hx, Hy; reflexivity).
    rewrite Hjs in H.
    destruct (decide (c `mod` W = 0)).
    + apply wait_jobs_inv in H as (Hp & Hs & Hl & (t & E & F)). simpl in *.
      exists c, t. repeat split; auto. rewrite E, <- app_assoc. reflexivity.
    + injection H as <- <-. exists c, []. simpl. repeat split; auto.
  - left. unfold bind, lift in H. injection H as <- <-. eauto.
Qed.

Lemma for_each_app {A : Type} (f : A -> M unit) (l1 l2 : list A) (σ : state) :
  for_each f (l1 ++ l2) σ = bind (for_each f l1) (fun _ => for_each f l2) σ.
Proof.
  revert σ. induction l1 as [|a l1 IH]; intros σ; simpl.
  - reflexivity.
  - unfold bind. destruct (f a σ) as [[[]|e|] σ1]; [rewrite IH; reflexivity|reflexivity|reflexivity].
Qed.

(** The jobs of a submission loop that returns: one start per line, in
    line order, with the line's own job number. *)
Lemma submit_all_done (w : world) (W : Z) (pointList : list (list string)) (σ σ' : state) :
  submit_all w W pointList σ = (Done tt, σ') ->
  spawned σ' = (spawned σ + length pointList)%nat
  /\ lookups σ' = lookups σ
  /\ exists t, trace σ' = trace σ ++ t
       /\ length (started_outputs t) = length pointList
       /\ forall i point, pointList !! i = Some point ->
            exists c, point_count point = Ok c
                      /\ job_start w (spawned σ + i) c point ∈ t.
Proof.
  unfold submit_all. revert σ.
  induction pointList as [|p pointList IH]; simpl; intros σ H.
  - injection H as <-. repeat split; auto. exists []. rewrite app_nil_r.
    repeat split; auto. intros i point Hi. discriminate.
  - apply bind_done in H as ([] & σ1 & Hp & H).
    apply submit_inv in Hp as [(e & _ & [=] & _) | (c & t1 & Hc & _ & Hs1 & Hl1 & E1 & F1)].
    apply IH in H as (Hs & Hl & (t2 & E2 & Hlen & Hjobs)).
    split; [lia|]. split; [congruence|].
    exists ((job_start w (spawned σ) c p :: t1) ++ t2).
    rewrite E2, E1, <- !app_assoc. split; [reflexivity|]. split.
    + rewrite started_outputs_app. change (job_start w (spawned σ) c p :: t1)
        with ([job_start w (spawned σ) c p] ++ t1).
      rewrite started_outputs_app, (started_outputs_wait _ F1), !length_app, Hlen.
      reflexivity.
    + intros [|i] point Hi.
      * injection Hi as <-. exists c. split; [exact Hc|].
        rewrite Nat.add_0_r. simpl. left.
      * destruct (Hjobs i point Hi) as (c' & Hc' & Hin). exists c'. split; [exact Hc'|].
        rewrite Hs1 in Hin. replace (spawned σ + S i)%nat with (S (spawned σ) + i)%nat by lia.
        apply elem_of_app. right. exact Hin.
Qed.

(** ** The listing *)

(** C6 (as amended): the lines of the listing that are the empty
    string are skipped, and every other line gives a point, its fields
    split at the commas; the parsing never fails and nothing is
    checked before the submission loop.  Reading the job number of a
    line fails exactly when the line has fewer than three fields
    ([IndexError]) or its third field is not an integer numeral
    ([ValueError]); such a line makes the run die of that exception
    only when the submission loop reaches it, after the jobs of all
    the lines before it have been started and before any later job
    is. *)
Theorem listing_checked_line_by_line (w : world) (fuel : nat) :
  (forall p, In p (parse_points (v_out_ascii w)) <->
     exists line, In line (Py.splitlines (Py.strip (v_out_ascii w)))
                  /\ line <> "" /\ p = Py.split "," (Py.strip line))
  /\ (forall p e, point_count p = Err e <->
        ((length p < 3)%nat /\ e = IndexError)
        \/ (exists f, p !! 2%nat = Some f /\ Py.int f = Err e))
  /\ (forall W good bad rest e σ1,
        parse_points (v_out_ascii w) = good ++ bad :: rest ->
        resolve_workers (cpu_count w) (environ_WORKERS w) = Ok W ->
        submit_all w W good initial = (Done tt, σ1) ->
        point_count bad = Err e ->
        run w fuel = (Raised e, after [EOutAscii (options w "vect")] σ1)
        /\ length (started_outputs (trace σ1)) = length good).
Proof.
  split; [|split].
  - intros p. unfold parse_points. rewrite in_map_iff. split.
    + intros (line & <- & Hin). apply filter_In in Hin as [Hin Hne].
      exists line. repeat split; auto. intros ->. discriminate.
    + intros (line & Hin & Hne & ->). exists line. split; [reflexivity|].
      apply filter_In. split; [exact Hin|]. destruct line; [contradiction|reflexivity].
  - apply point_count_err.
  - intros W good bad rest e σ1 Hpl HW Hgood Hbad. split.
    + rewrite run_listed, Hpl, HW.
      unfold bind at 1, lift at 1. unfold bind at 1.
      apply (trace_blind_eq _ [EOutAscii (options w "vect")]) in Hgood;
        [|apply trace_blind_submit_all].
      fold (listed w) in Hgood.
      unfold submit_all in *. rewrite for_each_app.
      rewrite (bind_eq_done _ _ _ _ _ Hgood). simpl.
      unfold bind at 1, submit at 1. rewrite Hbad. reflexivity.
    + apply submit_all_done in Hgood as (_ & _ & (t & E & Hlen & _)).
      rewrite E. exact Hlen.
Qed.

(** ** Positions and job numbers *)



(** ** The polling loop has no way out but a positive answer *)





(** ** The submission loop on a sequential listing *)

Lemma sequential_lookup (pointList : list (list string)) :
  sequential pointList <->
  forall k p, pointList !! k = Some p -> point_count p = Ok (Z.of_nat k + 1).
Proof.
  unfold sequential. split.
  - intros H k p Hk.
    assert (Hl : (point_count <$> pointList) !! k = Some (point_count p))
      by (rewrite list_lookup_fmap, Hk; reflexivity).
    change (List.map point_count pointList) with (point_count <$> pointList) in H.
    change (List.map (fun i => Ok (Z.of_nat i + 1)) (seq 0 (length pointList)))
      with ((fun i => Ok (Z.of_nat i + 1)) <$> seq 0 (length pointList)) in H.
    rewrite H, list_lookup_fmap in Hl.
    rewrite lookup_seq_lt in Hl by (eapply lookup_lt_Some; eauto).
    simpl in Hl. congruence.
  - intros H.
    change (point_count <$> pointList
            = (fun i => Ok (Z.of_nat i + 1)) <$> seq 0 (length pointList)).
    apply list_eq. intros k. rewrite !list_lookup_fmap.
    destruct (pointList !! k) as [p|] eqn:Hk; simpl.
    + rewrite lookup_seq_lt by (eapply lookup_lt_Some; eauto). simpl.
      rewrite (H k p Hk). reflexivity.
    + apply lookup_ge_None in Hk. rewrite lookup_seq_ge by lia. reflexivity.
Qed.

Lemma wait_jobs_known (count : Z) (h : Z -> nat) (jobs : list Z) (σ : state) :
  (forall job, job ∈ jobs -> process σ !! (count - job) = Some (h job)) ->
  exists σ', wait_jobs count jobs σ = (Done tt, σ')
             /\ process σ' = process σ /\ spawned σ' = spawned σ
             /\ trace σ' = trace σ ++ ((fun job => EWait (h job)) <$> jobs).
Proof.
  revert σ. induction jobs as [|job jobs IH]; intros σ Hk; simpl.
  - eexists. split; [reflexivity|]. rewrite app_nil_r. auto.
  - unfold bind at 1, get_process. rewrite (Hk job) by left.
    unfold bind at 1, wait, emit.
    destruct (IH {| process := process σ; spawned := spawned σ; lookups := lookups σ;
                    trace := trace σ ++ [EWait (h job)] |}) as (σ' & -> & Hp & Hs & E).
    { intros job' Hin. simpl. apply Hk. right. exact Hin. }
    exists σ'. simpl in *. split; [reflexivity|]. repeat split; auto.
    rewrite E, <- app_assoc. reflexivity.
Qed.

(** One turn on the line [i] of a sequential listing, when the
    dictionary holds the handles of the jobs 1 to [i]. *)
Lemma submit_sequential (w : world) (W : Z) (i : nat) (p : list string) (σ : state) :
  1 <= W ->
  point_count p = Ok (Z.of_nat i + 1) ->
  spawned σ = i ->
  (forall c, 1 <= c <= Z.of_nat i -> process σ !! c = Some (Z.to_nat c - 1)%nat) ->
  exists σ', submit w W p σ = (Done tt, σ')
             /\ spawned σ' = S i
             /\ (forall c, 1 <= c <= Z.of_nat (S i) ->
                   process σ' !! c = Some (Z.to_nat c - 1)%nat)
             /\ trace σ' = trace σ ++ launch_step w W (i, p).
Proof.
  intros HW Hc Hsp Hproc.
  destruct (point_count_fields _ _ Hc) as (x & y & Hx & Hy).
  assert (Hins : forall c, 1 <= c <= Z.of_nat (S i) ->
            <[Z.of_nat i + 1 := i]> (process σ) !! c = Some (Z.to_nat c - 1)%nat).
  { intros c Hr. destruct (decide (c = Z.of_nat i + 1)) as [->|Hne].
    - rewrite lookup_insert_eq. f_equal. lia.
    - rewrite lookup_insert_ne by congruence. apply Hproc. lia. }
  unfold submit. rewrite Hc.
  unfold bind at 1, lift at 1. unfold Py.index. rewrite Hx, Hy.
  unfold bind at 1, lift at 1. unfold bind at 1, lift at 1.
  unfold bind at 1, start_command. unfold bind at 1, set_process.
  rewrite Hsp. unfold launch_step, job_start. simpl fst. simpl snd. rewrite Hx, Hy. simpl default.
  destruct (decide ((Z.of_nat i + 1) `mod` W = 0)) as [Hmod|Hmod].
  - set (σ0 := {| process := _; spawned := _; lookups := _; trace := _ |}).
    destruct (wait_jobs_known (Z.of_nat i + 1) (fun job => (i - Z.to_nat job)%nat)
                (seqZ 0 W) σ0) as (σ' & Hw & Hp & Hs & E).
    { intros job Hin. apply elem_of_seqZ in Hin. subst σ0. simpl.
      assert (W <= Z.of_nat i + 1).
      { apply Z.mod_divide in Hmod; [|lia]. apply Z.divide_pos_le in Hmod; lia. }
      rewrite Hins by lia. f_equal. lia. }
    exists σ'. split; [exact Hw|]. subst σ0. simpl in *.
    split; [exact Hs|]. split; [intros c Hr; rewrite Hp; apply Hins; exact Hr|].
    rewrite E, <- app_assoc. simpl. do 2 f_equal.
    unfold seqZ. rewrite <- list_fmap_compose. apply list_fmap_ext.
    intros k j _. simpl. f_equal. lia.
  - eexists. split; [reflexivity|]. simpl. repeat split; auto.
Qed.

Lemma submit_all_sequential (w : world) (W : Z) (pointList : list (list string))
    (i : nat) (σ : state) :
  1 <= W ->
  (forall k p, pointList !! k = Some p -> point_count p = Ok (Z.of_nat (i + k) + 1)) ->
  spawned σ = i ->
  (forall c, 1 <= c <= Z.of_nat i -> process σ !! c = Some (Z.to_nat c - 1)%nat) ->
  exists σ', submit_all w W pointList σ = (Done tt, σ')
             /\ trace σ' = trace σ ++ (numbered_from i pointList ≫= launch_step w W).
Proof.
  intros HW. unfold submit_all, numbered_from.
  revert i σ. induction pointList as [|p pointList IH]; intros i σ Hseq Hsp Hproc.
  - eexists. split; [reflexivity|]. simpl. rewrite app_nil_r. reflexivity.
  - destruct (submit_sequential w W i p σ HW) as (σ1 & Hs & Hsp1 & Hproc1 & E1); auto.
    { rewrite <- (Nat.add_0_r i) at 1. apply (Hseq 0%nat). reflexivity. }
    destruct (IH (S i) σ1) as (σ' & Hall & E); auto.
    { intros k q Hk. replace (S i + k)%nat with (i + S k)%nat by lia.
      apply (Hseq (S k)). exact Hk. }
    exists σ'. split.
    + cbn [for_each]. rewrite (bind_eq_done _ _ _ _ _ Hs). exact Hall.
    + rewrite E, E1, <- app_assoc. reflexivity.
Qed.

(** ** The submission loop runs in batches *)

Section Batches.

Variable w : world.
Variable W : Z.
Hypothesis W_pos : 1 <= W.

Let n : nat := Z.to_nat W.

Lemma position_mod (m d : nat) :
  (d < n)%nat ->
  (Z.of_nat (m * n + d) + 1) `mod` W = 0 <-> S d = n.
Proof.
  intros Hd. subst n.
  replace (Z.of_nat (m * Z.to_nat W + d) + 1) with ((Z.of_nat d + 1) + Z.of_nat m * W) by lia.
  rewrite Z_mod_plus_full. split.
  - intros H. destruct (decide (Z.of_nat d + 1 = W)) as [E|E]; [lia|].
    rewrite Z.mod_small in H by lia. lia.
  - intros H. replace (Z.of_nat d + 1) with W by lia. apply Z_mod_same_full.
Qed.

Lemma reverse_seq (a len : nat) :
  reverse (seq a len) = (fun job => (a + len - 1 - job)%nat) <$> seq 0 len.
Proof.
  induction len as [|len IH].
  - reflexivity.
  - rewrite seq_S, reverse_snoc, IH. cbn [seq fmap list_fmap]. f_equal; [lia|].
    rewrite <- fmap_S_seq, <- list_fmap_compose.
    apply list_fmap_ext. intros k j _. simpl. lia.
Qed.

(** Short of a multiple of the worker count, the loop only starts jobs. *)
Lemma launch_starts_only (B : list (nat * list string)) (m d : nat) :
  B.*1 = seq (m * n + d) (length B) ->
  (d + length B < n)%nat ->
  B ≫= launch_step w W = (fun ip => job_start w ip.1 (Z.of_nat ip.1 + 1) ip.2) <$> B.
Proof.
  revert d. induction B as [|[i p] B IH]; intros d Hc Hlen; [reflexivity|].
  cbn [fmap list_fmap length seq] in Hc. injection Hc as Hi Hc. simpl in Hi. subst i.
  cbn [mbind list_bind fmap list_fmap]. simpl in Hlen.
  rewrite (IH (S d)); [|rewrite Hc; f_equal; lia|lia].
  unfold launch_step at 1. cbn [fst snd].
  destruct (decide ((Z.of_nat (m * n + d) + 1) `mod` W = 0)) as [Hmod|Hmod].
  - apply position_mod in Hmod; lia.
  - reflexivity.
Qed.

(** A full batch: its jobs are started, then all of them are waited for. *)
Lemma launch_full_batch (B : list (nat * list string)) (m : nat) :
  B.*1 = seq (m * n) (length B) ->
  length B = n ->
  B ≫= launch_step w W = batch_events w n B.
Proof.
  intros Hc Hlen. unfold batch_events. rewrite decide_True by exact Hlen.
  assert (Hw : (fun ip : nat * list string => EWait ip.1) <$> reverse B
               = EWait <$> reverse (B.*1))
    by (rewrite <- fmap_reverse, <- list_fmap_compose; reflexivity).
  rewrite Hw, Hc, reverse_seq, Hlen. clear Hw.
  destruct B as [|x B _] using rev_ind.
  { exfalso. simpl in Hlen. subst n. lia. }
  rewrite length_app in Hlen, Hc. simpl in Hlen, Hc.
  rewrite fmap_app, Nat.add_1_r, seq_S in Hc. apply app_inj_2 in Hc as [Hc Hx]; [|reflexivity].
  destruct x as [i p]. simpl in Hx. injection Hx as Hi.
  rewrite bind_app, fmap_app.
  rewrite (launch_starts_only B m 0); [|rewrite Nat.add_0_r; exact Hc|lia].
  rewrite <- app_assoc. f_equal.
  cbn [mbind list_bind fmap list_fmap]. rewrite app_nil_r.
  unfold launch_step. cbn [fst snd app]. f_equal.
  rewrite decide_True.
  - rewrite <- list_fmap_compose. apply list_fmap_ext. intros k j _. simpl.
    f_equal. fold n. lia.
  - subst i. apply position_mod; lia.
Qed.

Lemma launch_in_batches_upto (fuel : nat) (L : list (nat * list string)) (m : nat) :
  (length L <= fuel)%nat ->
  L.*1 = seq (m * n) (length L) ->
  L ≫= launch_step w W = concat (batch_events w n <$> batches_upto fuel n L).
Proof.
  assert (Hn : (1 <= n)%nat) by (subst n; lia).
  revert L m. induction fuel as [|fuel IH]; intros L m Hlen Hc.
  - destruct L; [reflexivity|simpl in Hlen; lia].
  - destruct L as [|x L]; [reflexivity|].
    cbn [batches_upto]. set (L' := x :: L) in *.
    cbn [fmap list_fmap concat].
    rewrite <- (take_drop n L') at 1. rewrite bind_app. f_equal.
    + destruct (decide (n <= length L')%nat) as [Hfull|Hshort].
      * apply (launch_full_batch _ m).
        -- rewrite fmap_take, Hc, take_seq, length_take. reflexivity.
        -- rewrite length_take. lia.
      * rewrite take_ge by lia. unfold batch_events.
        rewrite decide_False by lia. rewrite app_nil_r.
        apply (launch_starts_only _ m 0); [rewrite Nat.add_0_r; exact Hc|lia].
    + destruct (decide (n <= length L')%nat) as [Hfull|Hshort].
      * apply (IH _ (S m)).
        -- rewrite length_drop. subst L'. simpl in *. lia.
        -- rewrite fmap_drop, Hc, drop_seq, length_drop. f_equal. lia.
      * rewrite drop_ge by lia. destruct fuel; reflexivity.
Qed.

Lemma numbered_fst (i : nat) (pointList : list (list string)) :
  (numbered_from i pointList).*1 = seq i (length (numbered_from i pointList)).
Proof.
  unfold numbered_from. rewrite length_zip, length_seq, Nat.min_id.
  apply fst_zip. rewrite length_seq. reflexivity.
Qed.

Lemma launch_in_batches (pointList : list (list string)) :
  numbered pointList ≫= launch_step w W = batched_trace w n pointList.
Proof.
  unfold batched_trace, batches.
  apply (launch_in_batches_upto _ _ 0); [reflexivity|].
  apply numbered_fst.
Qed.

End Batches.





(** The submission loop of a sequential listing returns, and its
    trace is the lockstep schedule. *)
Lemma launch_sequential (w : world) (W : Z) (pointList : list (list string)) :
  1 <= W -> sequential pointList ->
  exists σ1,
    submit_all w W pointList initial = (Done tt, σ1)
    /\ trace σ1 = numbered pointList ≫= launch_step w W.
Proof.
  intros HW Hseq.
  destruct (submit_all_sequential w W pointList 0 initial HW) as (σ1 & Hs & E).
  - intros k p Hk. simpl. apply sequential_lookup in Hk; assumption.
  - reflexivity.
  - intros c Hc. simpl in Hc. lia.
  - exists σ1. split; [exact Hs|]. rewrite E. reflexivity.
Qed.

(** After the submission loop the run starts and waits for nothing. *)
Lemma run_after_launch (w : world) (W : Z) (σ1 : state) (fuel : nat) :
  resolve_workers (cpu_count w) (environ_WORKERS w) = Ok W ->
  submit_all w W (parse_points (v_out_ascii w)) initial = (Done tt, σ1) ->
  exists rest, trace (snd (run w fuel)) = EOutAscii (options w "vect") :: trace σ1 ++ rest
               /\ Forall (fun e => ~ is_launch e) rest.
Proof.
  intros HW Hs. rewrite run_listed, HW.
  unfold bind at 1, lift at 1.
  apply (trace_blind_eq _ [EOutAscii (options w "vect")]) in Hs;
    [|apply trace_blind_submit_all].
  fold (listed w) in Hs. rewrite (bind_eq_done _ _ _ _ _ Hs).
  match goal with |- context [snd (?m ?σ)] => destruct (m σ) as [o σ'] eqn:Hm end.
  simpl. revert Hm.
  change (EOutAscii (options w "vect") :: trace σ1)
    with (trace (after [EOutAscii (options w "vect")] σ1)).
  apply extends_bind.
  - eapply extends_weaken; [|apply extends_collect_all]. intros []; simpl; tauto.
  - intros rows. unfold to_rast, remove.
    apply extends_bind; [apply extends_emit; simpl; tauto|]. intros _.
    apply extends_bind; [apply extends_emit; simpl; tauto|]. intros _.
    apply extends_emit; simpl; tauto.
Qed.


(** ** The number of running processes *)

Lemma prefix_app_cases {A : Type} (t t1 t2 : list A) :
  t `prefix_of` t1 ++ t2 ->
  t `prefix_of` t1 \/ exists t', t = t1 ++ t' /\ t' `prefix_of` t2.
Proof.
  revert t. induction t1 as [|x t1 IH]; intros t H.
  - right. exists t. auto.
  - destruct t as [|y t]; [left; apply prefix_nil|].
    simpl in H. pose proof (prefix_cons_inv_1 _ _ _ _ H) as ->.
    apply prefix_cons_inv_2 in H. destruct (IH _ H) as [Hp | (t' & -> & Hp)].
    + left. apply prefix_cons. exact Hp.
    + right. exists t'. auto.
Qed.

Lemma within_app (n : nat) (R : gset nat) (t1 t2 : list event) :
  within n R t1 -> within n (foldl step_running R t1) t2 -> within n R (t1 ++ t2).
Proof.
  intros H1 H2 t Hp. apply prefix_app_cases in Hp as [Hp | (t' & -> & Hp)].
  - apply H1. exact Hp.
  - rewrite foldl_app. apply H2. exact Hp.
Qed.

Lemma running_subset (t : list event) (R handles : gset nat) :
  (forall h input flags output coordinates kwargs,
     EStart h input flags output coordinates kwargs ∈ t -> h ∈ handles) ->
  foldl step_running R t ⊆ R ∪ handles.
Proof.
  revert R. induction t as [|e t IH]; intros R Hstart; simpl; [apply union_subseteq_l|].
  assert (Ht : forall h input flags output coordinates kwargs,
             EStart h input flags output coordinates kwargs ∈ t -> h ∈ handles)
    by (intros; eapply Hstart; right; eauto).
  specialize (IH (step_running R e) Ht).
  destruct e as [|h i f o c k|h| | | |]; simpl in *; try exact IH.
  - assert (Hh : h ∈ handles) by (eapply Hstart; left).
    intros x Hx. apply IH in Hx. rewrite !elem_of_union, elem_of_singleton in Hx.
    rewrite elem_of_union. destruct Hx as [[-> | Hx] | Hx]; auto.
  - intros x Hx. apply IH in Hx. rewrite elem_of_union, elem_of_difference in Hx.
    rewrite elem_of_union. tauto.
Qed.

Lemma running_not_launch (t : list event) (R : gset nat) :
  Forall (fun e => ~ is_launch e) t -> foldl step_running R t = R.
Proof.
  intros F. revert R. induction F as [|e t He _ IH]; intros R; [reflexivity|].
  simpl. rewrite IH. destruct e; simpl in *; tauto.
Qed.

Lemma running_starts (w : world) (B : list (nat * list string)) (R : gset nat) :
  foldl step_running R ((fun ip => job_start w ip.1 (Z.of_nat ip.1 + 1) ip.2) <$> B)
  = list_to_set (B.*1) ∪ R.
Proof.
  revert R. induction B as [|[i p] B IH]; intros R; cbn [fmap list_fmap foldl].
  - apply set_eq. intros x. rewrite elem_of_union, elem_of_list_to_set, elem_of_nil. tauto.
  - rewrite IH. apply set_eq. intros x. cbn [step_running job_start fst].
    rewrite !elem_of_union, !elem_of_list_to_set, elem_of_cons, elem_of_singleton. tauto.
Qed.

Lemma running_waits (B : list (nat * list string)) (R : gset nat) :
  foldl step_running R ((fun ip => EWait ip.1) <$> B) = R ∖ list_to_set (B.*1).
Proof.
  revert R. induction B as [|[i p] B IH]; intros R; cbn [fmap list_fmap foldl].
  - apply set_eq. intros x. rewrite elem_of_difference, elem_of_list_to_set, elem_of_nil. tauto.
  - rewrite IH. apply set_eq. intros x. cbn [step_running fst].
    rewrite !elem_of_difference, !elem_of_list_to_set, elem_of_cons, elem_of_singleton. tauto.
Qed.

(** A full batch leaves no process running. *)
Lemma running_full_batch (w : world) (n : nat) (B : list (nat * list string)) :
  length B = n -> foldl step_running ∅ (batch_events w n B) = ∅.
Proof.
  intros Hlen. unfold batch_events. rewrite decide_True by exact Hlen.
  rewrite foldl_app, running_starts, running_waits.
  apply set_eq. intros h. rewrite fmap_reverse.
  rewrite elem_of_difference, elem_of_union, !elem_of_list_to_set, elem_of_reverse.
  rewrite elem_of_empty. tauto.
Qed.

(** Within a batch at most its own jobs run. *)
Lemma within_batch (w : world) (n a : nat) (B : list (nat * list string)) :
  B.*1 = seq a (length B) -> (length B <= n)%nat -> within n ∅ (batch_events w n B).
Proof.
  intros Hc Hlen t [k Hk].
  assert (Hsub : foldl step_running ∅ t ⊆ ∅ ∪ list_to_set (B.*1)).
  { apply running_subset. intros h input flags output coordinates kwargs Hin.
    assert (Hin' : EStart h input flags output coordinates kwargs ∈ batch_events w n B)
      by (rewrite Hk; apply elem_of_app; left; exact Hin).
    unfold batch_events in Hin'. apply elem_of_app in Hin' as [Hin'|Hin'].
    - apply list_elem_of_fmap in Hin' as ([i p] & Heq & Hip).
      unfold job_start in Heq. injection Heq as -> _ _ _ _ _.
      apply elem_of_list_to_set. apply list_elem_of_fmap. exists (i, p). auto.
    - destruct (decide (length B = n)); [|inversion Hin'].
      apply list_elem_of_fmap in Hin' as (ip & Heq & _). discriminate. }
  apply subseteq_size in Hsub. etransitivity; [exact Hsub|].
  rewrite union_empty_l_L, size_list_to_set, length_fmap; [exact Hlen|].
  rewrite Hc. apply NoDup_seq.
Qed.

Lemma within_batches_upto (w : world) (n fuel : nat) (L : list (nat * list string)) (a : nat) :
  (1 <= n)%nat ->
  (length L <= fuel)%nat ->
  L.*1 = seq a (length L) ->
  within n ∅ (concat (batch_events w n <$> batches_upto fuel n L)).
Proof.
  intros Hn. revert L a. induction fuel as [|fuel IH]; intros L a Hlen Hc.
  - intros t Hp. apply prefix_nil_inv in Hp as ->. cbn [foldl]. rewrite size_empty. lia.
  - destruct L as [|x L].
    { intros t Hp. apply prefix_nil_inv in Hp as ->. cbn [foldl]. rewrite size_empty. lia. }
    cbn [batches_upto]. set (L' := x :: L) in *. cbn [fmap list_fmap concat].
    assert (Hb : within n ∅ (batch_events w n (take n L'))).
    { apply (within_batch w n a).
      - rewrite fmap_take, Hc, take_seq, length_take. reflexivity.
      - rewrite length_take. lia. }
    apply within_app; [exact Hb|].
    destruct (decide (n <= length L')%nat) as [Hfull|Hshort].
    + rewrite running_full_batch by (rewrite length_take; lia).
      apply (IH _ (a + n)%nat).
      * rewrite length_drop. subst L'. simpl in *. lia.
      * rewrite fmap_drop, Hc, drop_seq, length_drop. reflexivity.
    + rewrite drop_ge by lia.
      assert (Hnil : batches_upto fuel n (@nil (nat * list string)) = [])
        by (destruct fuel; reflexivity).
      rewrite Hnil. intros t Hp. apply prefix_nil_inv in Hp as ->. cbn [foldl].
      apply Hb. reflexivity.
Qed.

Lemma within_batched_trace (w : world) (n : nat) (pointList : list (list string)) :
  (1 <= n)%nat -> within n ∅ (batched_trace w n pointList).
Proof.
  intros Hn. unfold batched_trace, batches.
  apply (within_batches_upto w n _ _ 0 Hn); [reflexivity|]. apply numbered_fst.
Qed.

(** C1 (as amended): on a listing that carries the job numbers 1 to N
    in line order, with the resolved worker count W, the submission
    loop returns, and at every moment of the run, in the submission
    loop and after it, at most W of the started processes have not
    been waited for. *)
Theorem concurrency_ceiling (w : world) (W : Z) :
  resolve_workers (cpu_count w) (environ_WORKERS w) = Ok W ->
  sequential (parse_points (v_out_ascii w)) ->
  (exists σ1,
     submit_all w W (parse_points (v_out_ascii w)) initial = (Done tt, σ1)
     /\ forall t, t `prefix_of` trace σ1 -> (size (running t) <= Z.to_nat W)%nat)
  /\ forall fuel t,
       t `prefix_of` trace (snd (run w fuel)) -> (size (running t) <= Z.to_nat W)%nat.
Proof.
  intros HW Hseq. pose proof (resolve_workers_pos _ _ _ HW) as Hpos.
  destruct (launch_sequential w W _ Hpos Hseq) as (σ1 & Hs & E).
  assert (Hin : within (Z.to_nat W) ∅ (trace σ1)).
  { rewrite E, launch_in_batches by exact Hpos. apply within_batched_trace. lia. }
  split; [exists σ1; split; [exact Hs|exact Hin]|].
  intros fuel t Hp.
  destruct (run_after_launch w W σ1 fuel HW Hs) as (rest & Erun & Frest).
  rewrite Erun in Hp. destruct t as [|e t]; [apply (Hin []), prefix_nil|].
  pose proof (prefix_cons_inv_1 _ _ _ _ Hp) as ->. apply prefix_cons_inv_2 in Hp.
  rewrite running_listing.
  apply prefix_app_cases in Hp as [Hp | (t' & -> & Hp)].
  - apply Hin. exact Hp.
  - unfold running. rewrite foldl_app, running_not_launch.
    + apply Hin. reflexivity.
    + destruct Hp as [k ->]. apply Forall_app in Frest as [Frest _]. exact Frest.
Qed.

(** * Further properties of [main] *)

(** ** Runs that stop before the first job, or have no job *)

Lemma int_err (s : string) (e : exn) : Py.int s = Err e -> e = ValueError.
Proof.
  unfold Py.int.
  destruct (match Py.lstrip s with
            | String "-" r => (true, Py.lstrip r)
            | String "+" r => (false, Py.lstrip r)
            | _ => (false, Py.lstrip s)
            end) as [neg s2].
  destruct (Py.rstrip s2) as [|c ds]; [congruence|].
  destruct (Py.digits 0 (String c ds)); [discriminate|congruence].
Qed.

(** X1: on a host with one processor, a WORKERS setting that is not
    an integer numeral makes the run die of a [ValueError] right after
    the listing has been read: [v.out.ascii] is the only command that
    the run has called, and no job is started, whatever the listing. *)
Theorem bad_workers_setting_stops_run (w : world) (fuel : nat) (s : string) (e : exn) :
  cpu_count w = 1 -> environ_WORKERS w = Some s -> Py.int s = Err e ->
  e = ValueError
  /\ run w fuel
     = (Raised ValueError,
        {| process := ∅; spawned := 0; lookups := 0;
           trace := [EOutAscii (options w "vect")] |}).
Proof.
  intros Hc He Hi. pose proof (int_err _ _ Hi) as ->. split; [reflexivity|].
  rewrite run_listed. unfold resolve_workers. rewrite Hc, He. simpl. rewrite Hi. reflexivity.
Qed.

Lemma parse_points_blank (listing : string) :
  Py.strip listing = "" -> parse_points listing = [].
Proof. unfold parse_points. intros ->. reflexivity. Qed.

(** X2: when the listing holds nothing but whitespace there is no
    point: after the reading of the listing the run starts no job and
    makes no lookup, so it returns without polling at all; it converts
    an empty vector and makes the two removals.  These four are all
    the commands that the run calls. *)
Theorem empty_listing_run (w : world) (fuel : nat) (W : Z) :
  Py.strip (v_out_ascii w) = "" ->
  resolve_workers (cpu_count w) (environ_WORKERS w) = Ok W ->
  run w fuel
  = (Done tt, {| process := ∅; spawned := 0; lookups := 0;
                 trace := EOutAscii (options w "vect") :: closing_events w [] |}).
Proof.
  intros Hb HW. rewrite run_listed, (parse_points_blank _ Hb), HW. reflexivity.
Qed.

(** X3: the commands, waits and lookups of a run come in four phases,
    in this order and never interleaved: the reading of the listing of
    the input vector, which comes first in every run; the starts and
    waits of the
    submission loop; the lookups and reports of the aggregation loop;
    the conversion and the removals.  The last phase is empty unless
    the run returns. *)
Theorem run_phases_in_order (w : world) (fuel : nat) (o : outcome unit) (σ' : state) :
  run w fuel = (o, σ') ->
  exists t1 t2 t3,
    trace σ' = EOutAscii (options w "vect") :: t1 ++ t2 ++ t3
    /\ Forall is_launch t1 /\ Forall is_poll t2 /\ Forall is_output t3
    /\ (o <> Done tt -> t3 = [])
    /\ (o = Done tt -> exists rows, t3 = closing_events w rows).
Proof.
  rewrite run_listed. intros H.
  apply bind_inv in H as [(W & σ0 & Hl & H) | [(e & Hl & ->) | [Hl ->]]];
    apply lift_inv in Hl as [-> Hl].
  2,3: exists [], [], []; repeat split; auto; discriminate.
  apply bind_inv in H as [([] & σ1 & Hs & H) | [(e & Hs & ->) | [Hs ->]]].
  2,3: destruct (extends_submit_all _ _ _ _ _ _ Hs) as (t1 & E1 & F1);
       exists t1, [], []; rewrite E1, !app_nil_r; repeat split; auto; discriminate.
  destruct (extends_submit_all _ _ _ _ _ _ Hs) as (t1 & E1 & F1).
  apply bind_inv in H as [(rows & σ2 & Hc & H) | [(e & Hc & ->) | [Hc ->]]].
  2,3: destruct (extends_collect_all _ _ _ _ _ _ _ Hc) as (t2 & E2 & F2);
       exists t1, t2, []; rewrite E2, E1, !app_nil_r; repeat split; auto; discriminate.
  destruct (extends_collect_all _ _ _ _ _ _ _ Hc) as (t2 & E2 & F2).
  unfold to_rast, remove, bind, emit in H. injection H as <- <-.
  exists t1, t2, (closing_events w rows). simpl.
  rewrite E2, E1, <- !app_assoc. repeat split; auto.
  - repeat constructor.
  - intros Hn. contradiction.
  - eauto.
Qed.

(** ** More on the submission loop *)

Lemma within_handles (n : nat) (t : list event) (handles : gset nat) :
  (forall h input flags output coordinates kwargs,
     EStart h input flags output coordinates kwargs ∈ t -> h ∈ handles) ->
  (size handles <= n)%nat ->
  within n ∅ t.
Proof.
  intros Hstart Hsize t' [k Hk].
  assert (Hsub : foldl step_running ∅ t' ⊆ ∅ ∪ handles).
  { apply running_subset. intros h input flags output coordinates kwargs Hin.
    apply (Hstart h input flags output coordinates kwargs).
    rewrite Hk. apply elem_of_app. left. exact Hin. }
  apply subseteq_size in Hsub. rewrite union_empty_l_L in Hsub. lia.
Qed.

Lemma submit_single (w : world) (p : list string) (c : Z) (σ : state) :
  point_count p = Ok c ->
  exists σ', submit w 1 p σ = (Done tt, σ')
             /\ spawned σ' = S (spawned σ)
             /\ trace σ' = trace σ ++ [job_start w (spawned σ) c p; EWait (spawned σ)].
Proof.
  intros Hc. destruct (point_count_fields _ _ Hc) as (x & y & Hx & Hy).
  unfold submit. rewrite Hc.
  unfold bind at 1, lift at 1. unfold Py.index. rewrite Hx, Hy.
  unfold bind at 1, lift at 1. unfold bind at 1, lift at 1.
  unfold bind at 1, start_command. unfold bind at 1, set_process.
  rewrite decide_True by apply Z.mod_1_r.
  change (seqZ 0 1) with [0].
  set (σ0 := {| process := _; spawned := _; lookups := _; trace := _ |}).
  destruct (wait_jobs_known c (fun _ => spawned σ) [0] σ0) as (σ' & Hw & _ & Hs & E).
  { intros job Hin. apply list_elem_of_singleton in Hin as ->. subst σ0. simpl.
    rewrite Z.sub_0_r. apply lookup_insert_eq. }
  exists σ'. split; [exact Hw|]. subst σ0. simpl in *. split; [exact Hs|].
  rewrite E, <- app_assoc. unfold job_start. rewrite Hx, Hy. reflexivity.
Qed.

Lemma submit_all_single (w : world) (pointList : list (list string)) (σ : state) :
  Forall (fun p => is_ok (point_count p) = true) pointList ->
  exists σ', submit_all w 1 pointList σ = (Done tt, σ')
             /\ trace σ' = trace σ ++ (numbered_from (spawned σ) pointList ≫= serial_step w).
Proof.
  unfold submit_all, numbered_from. intros Hok. revert σ.
  induction Hok as [|p pointList Hp _ IH]; intros σ.
  - eexists. split; [reflexivity|]. simpl. rewrite app_nil_r. reflexivity.
  - destruct (point_count p) as [c|e] eqn:Hc; [|discriminate].
    destruct (submit_single w p c σ Hc) as (σ1 & Hs & Hsp & E1).
    destruct (IH σ1) as (σ' & Hall & E).
    exists σ'. split.
    + cbn [for_each]. rewrite (bind_eq_done _ _ _ _ _ Hs). exact Hall.
    + rewrite E, E1, Hsp, <- app_assoc.
      cbn [length seq zip_with mbind list_bind]. unfold serial_step at 2, job_number.
      cbn [fst snd]. rewrite Hc. reflexivity.
Qed.

Lemma serial_running (w : world) (L : list (nat * list string)) :
  foldl step_running ∅ (L ≫= serial_step w) = ∅ /\ within 1 ∅ (L ≫= serial_step w).
Proof.
  induction L as [|[i p] L [IH1 IH2]].
  - split; [reflexivity|]. intros t Hp. apply prefix_nil_inv in Hp as ->.
    cbn [foldl]. rewrite size_empty. lia.
  - cbn [mbind list_bind].
    assert (Hblock : foldl step_running ∅ (serial_step w (i, p)) = ∅).
    { unfold serial_step, job_start. cbn [foldl step_running fst].
      apply set_eq. intros x.
      rewrite elem_of_difference, elem_of_union, elem_of_singleton, elem_of_empty. tauto. }
    split.
    + rewrite foldl_app, Hblock. exact IH1.
    + apply within_app; [|rewrite Hblock; exact IH2].
      apply (within_handles 1 _ {[i]}); [|rewrite size_singleton; lia].
      intros h input flags output coordinates kwargs Hin.
      unfold serial_step, job_start in Hin.
      apply elem_of_cons in Hin as [Hin|Hin].
      * injection Hin as -> _ _ _ _ _. apply elem_of_singleton. reflexivity.
      * apply list_elem_of_singleton in Hin. discriminate.
Qed.

(** X4: with a worker count of 1 the jobs run one after the other
    whatever numbers the listing carries: as long as the number of
    every line can be read, the submission loop returns, each job is
    waited for right after its start, and never more than one
    process is running. *)
Theorem single_worker_runs_serially (w : world) (pointList : list (list string)) :
  Forall (fun p => is_ok (point_count p) = true) pointList ->
  exists σ1,
    submit_all w 1 pointList initial = (Done tt, σ1)
    /\ trace σ1 = numbered pointList ≫= serial_step w
    /\ running (trace σ1) = ∅
    /\ forall t, t `prefix_of` trace σ1 -> (size (running t) <= 1)%nat.
Proof.
  intros Hok. destruct (submit_all_single w pointList initial Hok) as (σ1 & Hs & E).
  simpl in E. fold (numbered pointList) in E.
  exists σ1. split; [exact Hs|]. split; [exact E|]. rewrite E.
  destruct (serial_running w (numbered pointList)) as [H1 H2]. split; [exact H1|exact H2].
Qed.

Lemma wait_jobs_missing (count : Z) (jobs : list Z) (σ : state) :
  (exists job, job ∈ jobs /\ process σ !! (count - job) = None) ->
  exists σ' t, wait_jobs count jobs σ = (Raised KeyError, σ')
               /\ trace σ' = trace σ ++ t /\ Forall is_wait t.
Proof.
  revert σ. induction jobs as [|job jobs IH]; intros σ (j & Hin & Hj).
  - inversion Hin.
  - cbn [wait_jobs]. unfold bind at 1, get_process.
    destruct (process σ !! (count - job)) as [h|] eqn:Hl.
    + unfold bind at 1, wait, emit.
      destruct (IH {| process := process σ; spawned := spawned σ; lookups := lookups σ;
                      trace := trace σ ++ [EWait h] |}) as (σ' & t & -> & E & F).
      { exists j. split; [|exact Hj].
        apply elem_of_cons in Hin as [->|Hin]; [congruence|exact Hin]. }
      exists σ', (EWait h :: t). simpl in E. split; [reflexivity|].
      rewrite E, <- app_assoc. split; [reflexivity|]. constructor; simpl; auto.
    + exists σ, []. rewrite app_nil_r. auto.
Qed.

(** X5: when the number [c] of a line is a multiple of the worker
    count, the loop waits for the jobs [c], [c-1], ..., [c-W+1] out
    of the dictionary: the turn goes through when all these numbers
    are keys, the new job included, and dies of a [KeyError], after
    the job of the line has been started, as soon as one of them is
    missing. *)
Theorem batch_wait_needs_every_key (w : world) (W : Z) (point : list string)
    (c : Z) (σ : state) :
  1 <= W -> point_count point = Ok c -> c `mod` W = 0 ->
  ((forall job, 0 <= job < W ->
      is_Some (<[c := spawned σ]> (process σ) !! (c - job))) ->
   exists σ', submit w W point σ = (Done tt, σ'))
  /\ (forall job, 0 <= job < W ->
        <[c := spawned σ]> (process σ) !! (c - job) = None ->
        exists σ', submit w W point σ = (Raised KeyError, σ')
                   /\ job_start w (spawned σ) c point ∈ trace σ').
Proof.
  intros HW Hc Hmod.
  destruct (point_count_fields _ _ Hc) as (x & y & Hx & Hy).
  assert (Hsub : forall σ0,
            σ0 = {| process := <[c := spawned σ]> (process σ); spawned := S (spawned σ);
                    lookups := lookups σ;
                    trace := trace σ ++ [job_start w (spawned σ) c point] |} ->
            submit w W point σ = wait_jobs c (seqZ 0 W) σ0).
  { intros σ0 ->. unfold submit. rewrite Hc.
    unfold bind at 1, lift at 1. unfold Py.index. rewrite Hx, Hy.
    unfold bind at 1, lift at 1. unfold bind at 1, lift at 1.
    unfold bind at 1, start_command. unfold bind at 1, set_process.
    rewrite decide_True by exact Hmod. unfold job_start. rewrite Hx, Hy. reflexivity. }
  split.
  - intros Hkeys. rewrite (Hsub _ eq_refl).
    destruct (wait_jobs_known c
                (fun job => default 0%nat (<[c := spawned σ]> (process σ) !! (c - job)))
                (seqZ 0 W)
                {| process := <[c := spawned σ]> (process σ); spawned := S (spawned σ);
                   lookups := lookups σ;
                   trace := trace σ ++ [job_start w (spawned σ) c point] |})
      as (σ' & Hw & _).
    { intros job Hin. apply elem_of_seqZ in Hin. simpl.
      destruct (Hkeys job ltac:(lia)) as [h ->]. reflexivity. }
    exists σ'. exact Hw.
  - intros job Hjob Hnone. rewrite (Hsub _ eq_refl).
    destruct (wait_jobs_missing c (seqZ 0 W)
                {| process := <[c := spawned σ]> (process σ); spawned := S (spawned σ);
                   lookups := lookups σ;
                   trace := trace σ ++ [job_start w (spawned σ) c point] |})
      as (σ' & t & Hw & E & _).
    { exists job. split; [apply elem_of_seqZ; lia|exact Hnone]. }
    exists σ'. split; [exact Hw|]. rewrite E. simpl.
    apply elem_of_app. left. apply elem_of_app. right. left.
Qed.

Lemma running_batches_upto (w : world) (n fuel : nat) (L : list (nat * list string)) (a : nat) :
  (1 <= n)%nat ->
  (length L <= fuel)%nat ->
  L.*1 = seq a (length L) ->
  foldl step_running ∅ (concat (batch_events w n <$> batches_upto fuel n L))
  = list_to_set (seq (a + length L / n * n) (length L `mod` n)).
Proof.
  intros Hn. revert L a. induction fuel as [|fuel IH]; intros L a Hlen Hc.
  - destruct L; [|simpl in Hlen; lia]. simpl. rewrite Nat.Div0.mod_0_l. reflexivity.
  - destruct L as [|x L].
    { simpl. rewrite Nat.Div0.mod_0_l. reflexivity. }
    cbn [batches_upto]. set (L' := x :: L) in *. cbn [fmap list_fmap concat].
    rewrite foldl_app.
    destruct (decide (n <= length L')%nat) as [Hfull|Hshort].
    + rewrite running_full_batch by (rewrite length_take; lia).
      rewrite (IH _ (a + n)%nat).
      * rewrite length_drop.
        replace (length L') with ((length L' - n) + 1 * n)%nat at 3 4 by lia.
        rewrite Nat.div_add, Nat.Div0.mod_add by lia. f_equal. f_equal. lia.
      * rewrite length_drop. subst L'. simpl in *. lia.
      * rewrite fmap_drop, Hc, drop_seq, length_drop. reflexivity.
    + rewrite take_ge, drop_ge by lia.
      assert (Hnil : batches_upto fuel n (@nil (nat * list string)) = [])
        by (destruct fuel; reflexivity).
      rewrite Hnil. cbn [fmap list_fmap concat foldl].
      unfold batch_events. rewrite decide_False by lia. rewrite app_nil_r.
      rewrite running_starts, Hc, union_empty_r_L.
      rewrite Nat.div_small, Nat.mod_small by lia. f_equal. f_equal. lia.
Qed.

(** X6: on a listing that carries the job numbers 1 to N in line
    order, the jobs of the last batch, when it is shorter than the
    worker count, are never waited for: at the end of the submission
    loop and at any later moment of the run, the processes still
    running are exactly those of the positions from the last
    multiple of W below N on.  Only the polling loop finds out that
    they are done. *)
Theorem last_batch_never_waited (w : world) (W : Z) :
  resolve_workers (cpu_count w) (environ_WORKERS w) = Ok W ->
  sequential (parse_points (v_out_ascii w)) ->
  let N := length (parse_points (v_out_ascii w)) in
  let n := Z.to_nat W in
  forall fuel h,
    h ∈ running (trace (snd (run w fuel))) <-> (N / n * n <= h < N)%nat.
Proof.
  intros HW Hseq N n fuel h. pose proof (resolve_workers_pos _ _ _ HW) as Hpos.
  destruct (launch_sequential w W _ Hpos Hseq) as (σ1 & Hs & E).
  destruct (run_after_launch w W σ1 fuel HW Hs) as (rest & Erun & Frest).
  rewrite Erun, running_listing.
  unfold running. rewrite foldl_app, (running_not_launch _ _ Frest).
  rewrite E, launch_in_batches by exact Hpos.
  unfold batched_trace, batches.
  rewrite (running_batches_upto w (Z.to_nat W) _ _ 0); [|lia|reflexivity|apply numbered_fst].
  assert (HN : length (numbered (parse_points (v_out_ascii w))) = N).
  { unfold numbered, numbered_from. rewrite length_zip, length_seq. apply Nat.min_id. }
  rewrite HN. fold n. rewrite elem_of_list_to_set, elem_of_seq.
  pose proof (Nat.div_mod_eq N n). simpl. nia.
Qed.

Lemma submit_all_outputs (w : world) (W : Z) (pointList : list (list string)) (σ σ' : state) :
  submit_all w W pointList σ = (Done tt, σ') ->
  exists t, trace σ' = trace σ ++ t
            /\ started_outputs t = (fun p => artifact_name (job_number p)) <$> pointList.
Proof.
  unfold submit_all. revert σ.
  induction pointList as [|p pointList IH]; simpl; intros σ H.
  - injection H as <-. exists []. rewrite app_nil_r. auto.
  - apply bind_done in H as ([] & σ1 & Hp & H).
    apply submit_inv in Hp as [(e & _ & [=] & _) | (c & t1 & Hc & _ & _ & _ & E1 & F1)].
    apply IH in H as (t2 & E2 & Ho).
    exists ((job_start w (spawned σ) c p :: t1) ++ t2).
    rewrite E2, E1, <- !app_assoc. split; [reflexivity|].
    rewrite started_outputs_app.
    change (job_start w (spawned σ) c p :: t1) with ([job_start w (spawned σ) c p] ++ t1).
    rewrite started_outputs_app, (started_outputs_wait _ F1), Ho.
    unfold job_number at 2. rewrite Hc. reflexivity.
Qed.

Lemma fmap_positions {A B : Type} (f : A -> B) (g : nat -> B) (l : list A) :
  f <$> l = g <$> seq 0 (length l) <-> forall k a, l !! k = Some a -> f a = g k.
Proof.
  split.
  - intros H k a Hk.
    assert (Hl : (f <$> l) !! k = Some (f a))
      by (rewrite list_lookup_fmap, Hk; reflexivity).
    rewrite H, list_lookup_fmap in Hl.
    rewrite lookup_seq_lt in Hl by (eapply lookup_lt_Some; eauto).
    simpl in Hl. congruence.
  - intros H. apply list_eq. intros k. rewrite !list_lookup_fmap.
    destruct (l !! k) as [a|] eqn:Hk.
    + rewrite lookup_seq_lt by (eapply lookup_lt_Some; eauto).
      simpl. f_equal. apply H. exact Hk.
    + rewrite lookup_seq_ge by (apply lookup_ge_None; exact Hk). reflexivity.
Qed.

(** C2 (as amended): on a run that returns, with N points in the
    listing, the conversion receives exactly N rows; the row at the
    position i is built from the line i and from the report of the
    raster named for i+1; the rasters summarized are those named for
    1, 2, ..., N, each once, in this order; and the rows are the same
    for any other timing of the appearance of the rasters under which
    the run returns.  The jobs that were started wrote the rasters
    named for the numbers that the lines carry: the rasters summarized
    are the rasters of the started jobs, in the order of their start,
    exactly when the listing carries the job numbers 1 to N in line
    order. *)
Theorem results_complete_and_ordered (w : world) (fuel : nat) (σ' : state) :
  run w fuel = (Done tt, σ') ->
  let pointList := parse_points (v_out_ascii w) in
  let N := length pointList in
  exists rows,
    rasterized (trace σ') = [rows]
    /\ length rows = N
    /\ stats_names (trace σ') = artifact_name <$> seqZ 1 (Z.of_nat N)
    /\ NoDup (stats_names (trace σ'))
    /\ (forall i, (i < N)%nat ->
          exists row, rows !! i = Some row /\ row_at w pointList i = Ok row)
    /\ (forall w' fuel' σ'',
          same_but_timing w w' -> run w' fuel' = (Done tt, σ'') ->
          rasterized (trace σ'') = [rows])
    /\ started_outputs (trace σ') = (fun p => artifact_name (job_number p)) <$> pointList
    /\ (started_outputs (trace σ') = stats_names (trace σ') <-> sequential pointList).
Proof.
  intros H pointList N.
  pose proof (run_done_rasterized _ _ _ H) as (rows & Hr & Hrows).
  exists rows. split; [exact Hr|].
  pose proof (rows_lookup _ _ _ _ Hrows) as [Hlen Hlook].
  rewrite length_seq in Hlen. split; [exact Hlen|].
  pose proof (run_done_trace _ _ _ H) as (W & σ1 & rows' & t & HW & Hsub & F1 & F2 & E & Hs & _).
  assert (Hnames : stats_names (trace σ') = artifact_name <$> seqZ 1 (Z.of_nat N)).
  { rewrite E, stats_names_listing, !stats_names_app, (stats_names_launch _ F1), Hs. simpl.
    rewrite app_nil_r. apply names_seqZ. }
  assert (Hstarted : started_outputs (trace σ')
                     = (fun p => artifact_name (job_number p)) <$> pointList).
  { pose proof (submit_all_outputs _ _ _ _ _ Hsub) as (t1 & E1 & Ho). simpl in E1.
    rewrite E, started_outputs_listing, !started_outputs_app, (started_outputs_poll _ F2), E1.
    simpl. rewrite app_nil_r. exact Ho. }
  split; [exact Hnames|]. split; [|split; [|split; [|split]]].
  - rewrite Hnames. apply NoDup_fmap_2; [intros a b; apply artifact_name_inj|].
    apply NoDup_seqZ.
  - intros i Hi. apply Hlook. apply lookup_seq. split; [reflexivity|exact Hi].
  - intros w' fuel' σ'' (_ & _ & _ & _ & Hlisting & Hstats & _ & _) H'.
    apply run_done_rasterized in H' as (rows'' & Hr' & Hrows').
    rewrite Hr'. f_equal. apply fmap_Ok_inj. rewrite Hrows', Hrows.
    rewrite <- Hlisting. apply list_fmap_ext. intros i v _.
    symmetry. apply row_at_timing. exact Hstats.
  - exact Hstarted.
  - rewrite Hstarted, Hnames, <- names_seqZ. fold pointList N. unfold N.
    rewrite fmap_positions, sequential_lookup.
    apply submit_all_done in Hsub as (_ & _ & (t1 & _ & _ & Hjobs)).
    split; intros Hk k p Hp.
    + destruct (Hjobs k p Hp) as (c & Hc & _).
      specialize (Hk k p Hp). apply artifact_name_inj in Hk.
      unfold job_number in Hk. rewrite Hc in Hk. congruence.
    + unfold job_number. rewrite (Hk k p Hp). reflexivity.
Qed.

(** X7: whatever the worker count, the rasters that the jobs of a
    submission loop write are named for the job numbers of the lines,
    in line order; so no two jobs write the same raster exactly when
    no two lines carry the same number. *)
Theorem outputs_distinct_iff_numbers_distinct (w : world) (W : Z)
    (pointList : list (list string)) (σ1 : state) :
  submit_all w W pointList initial = (Done tt, σ1) ->
  started_outputs (trace σ1) = (fun p => artifact_name (job_number p)) <$> pointList
  /\ (NoDup (started_outputs (trace σ1)) <-> NoDup (job_number <$> pointList)).
Proof.
  intros H. apply submit_all_outputs in H as (t & E & Ho). simpl in E. subst t.
  split; [exact Ho|]. rewrite Ho.
  rewrite (list_fmap_compose job_number artifact_name).
  apply NoDup_fmap. intros a b. apply artifact_name_inj.
Qed.

Lemma extends_submit_call (w : world) (workers : Z) (point : list string) :
  extends (fun e => job_call w e /\ option_use w e) (submit w workers point).
Proof.
  unfold submit.
  apply extends_bind; [apply extends_lift|]. intros count.
  apply extends_bind; [apply extends_lift|]. intros x.
  apply extends_bind; [apply extends_lift|]. intros y.
  apply extends_bind.
  { intros σ o σ' H. injection H as <- <-. eexists. split; [reflexivity|].
    constructor; [|constructor]. simpl. eauto. }
  intros h. apply extends_bind; [apply extends_set_process|]. intros _.
  destruct (decide (count `mod` workers = 0)); [|apply extends_ret].
  intros σ o σ' H. apply wait_jobs_inv in H as (_ & _ & _ & (t & E & F)).
  exists t. split; [exact E|]. eapply Forall_impl; [exact F|].
  intros []; simpl; tauto.
Qed.

(** The arguments of every call of a run. *)
Lemma run_calls (w : world) (fuel : nat) (o : outcome unit) (σ' : state) :
  run w fuel = (o, σ') -> Forall (fun e => job_call w e /\ option_use w e) (trace σ').
Proof.
  intros H.
  assert (Hmain : extends (fun e => job_call w e /\ option_use w e) (main w fuel)).
  { unfold main, read_points. apply extends_bind.
    { apply extends_bind; [apply extends_emit; simpl; auto|]. intros _. apply extends_ret. }
    intros points. cbv zeta.
    apply extends_bind; [apply extends_lift|]. intros W.
    apply extends_bind.
    { apply extends_for_each. intros p. apply extends_submit_call. }
    intros _. apply extends_bind.
    { eapply extends_weaken; [|apply extends_collect_all]. intros []; simpl; tauto. }
    intros rows. unfold to_rast, remove.
    apply extends_bind; [apply extends_emit; simpl; auto|]. intros _.
    apply extends_bind; [apply extends_emit; simpl; auto|]. intros _.
    apply extends_emit; simpl; auto. }
  destruct (Hmain _ _ _ H) as (t & E & F). simpl in E. subst t. exact F.
Qed.

(** X8: every job of a run is started with the same flags: the flag
    [r] when refraction is asked for, then the flag [c] when
    curvature is asked for, then always the flag [b]; and the raster
    it writes is ["tempViewsh"] followed by an integer. *)
Theorem jobs_share_flags (w : world) (fuel : nat) (o : outcome unit) (σ' : state) :
  run w fuel = (o, σ') ->
  forall h input flags output coordinates kwargs,
    EStart h input flags output coordinates kwargs ∈ trace σ' ->
    flags = (if flag_r w then "r" else "") +:+ (if flag_c w then "c" else "") +:+ "b"
    /\ flags ∈ ["b"; "rb"; "cb"; "rcb"]
    /\ exists c : Z, output = "tempViewsh" +:+ Py.str c.
Proof.
  intros H h input flags output coordinates kwargs Hin.
  pose proof (run_calls _ _ _ _ H) as F.
  rewrite Forall_forall in F. specialize (F _ Hin). simpl in F.
  destruct F as [[-> Hout] _]. split; [|split; [|exact Hout]].
  - unfold flagstring. destruct (flag_r w), (flag_c w); reflexivity.
  - unfold flagstring. destruct (flag_r w), (flag_c w); cbn;
      repeat first [left; fail | apply elem_of_cons; (left; reflexivity) || right].
Qed.

Lemma copied_options (options : string -> string) (keys : list string)
    (acc : gmap string string) (key : string) :
  foldl (fun acc option => <[option := options option]> acc) acc keys !! key
  = if decide (key ∈ keys) then Some (options key) else acc !! key.
Proof.
  revert acc. induction keys as [|k keys IH]; intros acc; cbn [foldl].
  - destruct (decide (key ∈ [])) as [Hin|_]; [inversion Hin|reflexivity].
  - rewrite IH.
    destruct (decide (key ∈ keys)) as [Hin|Hin];
      destruct (decide (key ∈ k :: keys)) as [Hin'|Hin'].
    + reflexivity.
    + exfalso. apply Hin'. right. exact Hin.
    + apply elem_of_cons in Hin' as [->|Hin']; [|contradiction].
      apply lookup_insert_eq.
    + apply lookup_insert_ne. intros ->. apply Hin'. left.
Qed.

(** X17: where the options of the command line go.  The input vector
    is the input of [v.out.ascii] and the output name is the output
    of [v.to.rast].  Every job of a run is started on the input
    raster, and the dictionary it is handed holds exactly the five
    keys that the loop of lines 115 to 117 copies, each with the value
    that the parser returned for it: the vector and the output name do
    not come in through it. *)
Theorem jobs_get_the_five_options (w : world) (fuel : nat) (o : outcome unit) (σ' : state) :
  run w fuel = (o, σ') ->
  (forall input, EOutAscii input ∈ trace σ' -> input = options w "vect")
  /\ (forall rows output status,
        EToRast rows output status ∈ trace σ' -> output = options w "output")
  /\ (forall h input flags output coordinates kwargs,
        EStart h input flags output coordinates kwargs ∈ trace σ' ->
        input = options w "rast"
        /\ dom kwargs = list_to_set option_keys
        /\ forall key, kwargs !! key
                       = if decide (key ∈ option_keys) then Some (options w key) else None).
Proof.
  intros H. pose proof (run_calls _ _ _ _ H) as F. rewrite Forall_forall in F.
  split; [|split].
  - intros input Hin. exact (proj2 (F _ Hin)).
  - intros rows output status Hin. exact (proj2 (F _ Hin)).
  - intros h input flags output coordinates kwargs Hin.
    destruct (F _ Hin) as [_ [-> ->]]. split; [reflexivity|].
    assert (Hk : forall key, viewshed_options (options w) !! key
                 = if decide (key ∈ option_keys) then Some (options w key) else None).
    { intros key. unfold viewshed_options. rewrite copied_options.
      destruct (decide (key ∈ option_keys)); [reflexivity|apply lookup_empty]. }
    split; [|exact Hk].
    apply set_eq. intros key. rewrite elem_of_dom, Hk, elem_of_list_to_set.
    destruct (decide (key ∈ option_keys)) as [Hin'|Hin'].
    + split; [intros _; exact Hin'|intros _; eexists; reflexivity].
    + split; [intros [? [=]]|contradiction].
Qed.

(** ** More on the polling and aggregation loops *)

Lemma poll_done_exact (w : world) (fuel : nat) (name : string) (σ σ' : state) :
  poll w fuel name σ = (Done tt, σ') ->
  exists k,
    (k < fuel)%nat
    /\ find_file w (lookups σ + k) name = true
    /\ (forall j, (j < k)%nat -> find_file w (lookups σ + j) name = false)
    /\ lookups σ' = S (lookups σ + k)
    /\ trace σ' = trace σ ++ replicate k (EFindFile name false) ++ [EFindFile name true].
Proof.
  revert σ. induction fuel as [|fuel IH]; simpl; intros σ H; [discriminate|].
  unfold bind, lookup_file in H.
  destruct (find_file w (lookups σ) name) eqn:Hf.
  - injection H as <-. exists 0%nat. simpl. rewrite Nat.add_0_r.
    repeat split; auto; [lia|intros j Hj; lia].
  - apply IH in H as (k & Hk & Hyes & Hno & Hl & E). simpl in *.
    exists (S k). repeat split.
    + lia.
    + rewrite <- Hyes. f_equal. lia.
    + intros [|j] Hj; [rewrite Nat.add_0_r; exact Hf|].
      rewrite <- (Hno j) by lia. f_equal. lia.
    + lia.
    + rewrite E, <- app_assoc. reflexivity.
Qed.

Lemma poll_hang_exact (w : world) (fuel : nat) (name : string) (σ σ' : state) :
  poll w fuel name σ = (Hang, σ') ->
  (forall j, (j < fuel)%nat -> find_file w (lookups σ + j) name = false)
  /\ lookups σ' = (lookups σ + fuel)%nat.
Proof.
  revert σ. induction fuel as [|fuel IH]; simpl; intros σ H.
  - injection H as <-. split; [intros j Hj; lia|lia].
  - unfold bind, lookup_file in H.
    destruct (find_file w (lookups σ) name) eqn:Hf; [discriminate|].
    apply IH in H as [Hno Hl]. simpl in *. split; [|lia].
    intros [|j] Hj; [rewrite Nat.add_0_r; exact Hf|].
    rewrite <- (Hno j) by lia. f_equal. lia.
Qed.

(** X9: the polling loop stops at the first positive answer and asks
    nothing after it: when it returns after the cut of [fuel]
    lookups, it has made exactly k+1 lookups for the raster, the first
    k answered no and the last one yes; when it is cut, all [fuel]
    lookups were answered no. *)
Theorem poll_stops_at_first_yes (w : world) (fuel : nat) (name : string) (σ σ' : state)
    (o : outcome unit) :
  poll w fuel name σ = (o, σ') ->
  match o with
  | Done _ =>
      exists k,
        (k < fuel)%nat
        /\ find_file w (lookups σ + k) name = true
        /\ (forall j, (j < k)%nat -> find_file w (lookups σ + j) name = false)
        /\ lookups σ' = S (lookups σ + k)
        /\ trace σ' = trace σ ++ replicate k (EFindFile name false) ++ [EFindFile name true]
  | Hang =>
      (forall j, (j < fuel)%nat -> find_file w (lookups σ + j) name = false)
      /\ lookups σ' = (lookups σ + fuel)%nat
  | Raised _ => False
  end.
Proof.
  intros H. destruct o as [[]|e|].
  - apply poll_done_exact. exact H.
  - exact (poll_never_raises _ _ _ _ _ _ H).
  - apply poll_hang_exact. exact H.
Qed.

Lemma collect_block (w : world) (fuel : nat) (pointList : list (list string))
    (viewsh : nat) (σ σ' : state) (row : float * float * Z) :
  collect w fuel pointList viewsh σ = (Done row, σ') ->
  exists block, trace σ' = trace σ ++ block
                /\ poll_block (artifact_name (Z.of_nat viewsh + 1)) block.
Proof.
  unfold collect. intros H.
  apply bind_done in H as ([] & σ1 & Hp & H).
  apply bind_done in H as (viewshStats & σ2 & Hr & H).
  unfold read_stats, bind, emit, ret in Hr. injection Hr as <- <-.
  lift_done H point Hpoint. lift_done H x Hx. lift_done H y Hy. lift_done H n Hn.
  injection H as <- <-.
  apply poll_done_exact in Hp as (k & _ & _ & _ & _ & E).
  eexists. split; [|exists k; reflexivity].
  simpl. rewrite E, <- !app_assoc. reflexivity.
Qed.

Lemma collect_all_blocks (w : world) (fuel : nat) (pointList : list (list string))
    (positions : list nat) (σ σ' : state) (rows : list (float * float * Z)) :
  collect_all w fuel pointList positions σ = (Done rows, σ') ->
  exists blocks,
    trace σ' = trace σ ++ concat blocks
    /\ Forall2 (fun viewsh block => poll_block (artifact_name (Z.of_nat viewsh + 1)) block)
         positions blocks.
Proof.
  revert σ rows. induction positions as [|viewsh positions IH]; simpl; intros σ rows H.
  - injection H as <- <-. exists []. simpl. rewrite app_nil_r. auto.
  - apply bind_done in H as (d & σ1 & Hd & H).
    apply bind_done in H as (ds & σ2 & Hds & H).
    injection H as <- <-.
    apply collect_block in Hd as (block & E1 & Hb).
    apply IH in Hds as (blocks & E2 & Hbs).
    exists (block :: blocks). simpl. rewrite E2, E1, <- app_assoc. auto.
Qed.



(** X10: the aggregation resolves one job at a time, in the order of
    the positions: in a run that returns, the calls after the reading
    of the listing and the submission loop are, for the rasters 1, 2,
    ..., N in turn, the
    lookups of that raster up to its first positive answer followed
    by its report; no raster is looked up before the report of the
    one before it has been read. *)
Theorem aggregation_one_job_at_a_time (w : world) (fuel : nat) (σ' : state) :
  run w fuel = (Done tt, σ') ->
  exists t1 blocks rows,
    trace σ' = EOutAscii (options w "vect") :: t1 ++ concat blocks ++ closing_events w rows
    /\ Forall is_launch t1
    /\ Forall2 (fun viewsh block => poll_block (artifact_name (Z.of_nat viewsh + 1)) block)
         (seq 0 (length (parse_points (v_out_ascii w)))) blocks.
Proof.
  intros H. apply run_done in H as (W & σ1 & rows & σ2 & _ & Hs & Hc & E).
  apply collect_all_blocks in Hc as (blocks & E2 & Hb).
  destruct (extends_submit_all _ _ _ _ _ _ Hs) as (t1 & E1 & F1). simpl in E1.
  exists t1, blocks, rows. rewrite E, E2, E1, <- app_assoc. auto.
Qed.

Lemma coordinates_row (w : world) (pointList : list (list string)) (viewsh : nat)
    (point : list string) (e : exn) :
  pointList !! viewsh = Some point -> coordinates_of point = Err e ->
  row_at w pointList viewsh = Err e.
Proof.
  intros Hpt H. unfold row_at, Py.index at 1. rewrite Hpt. unfold coordinates_of in H.
  simpl.
  destruct (rbind (Py.index point 0) py_float) as [x|e0]; simpl in *; [|congruence].
  destruct (rbind (Py.index point 1) py_float) as [y|e1]; simpl in *; [discriminate|congruence].
Qed.

(** X11: the coordinates of a line are converted to floats only in
    the aggregation loop.  A line whose coordinates cannot be
    converted still gets its job started, with the two fields as they
    are; its raster is awaited and its report is read, and only then
    the run dies of the conversion error.  Such a run never returns
    and converts nothing to raster. *)
Theorem bad_coordinate_detected_late (w : world) (fuel : nat) (viewsh : nat)
    (point : list string) (e : exn) :
  parse_points (v_out_ascii w) !! viewsh = Some point ->
  coordinates_of point = Err e ->
  (forall o σ', run w fuel = (o, σ') -> o <> Done tt /\ rasterized (trace σ') = [])
  /\ (forall W c σ o σ',
        point_count point = Ok c -> submit w W point σ = (o, σ') ->
        job_start w (spawned σ) c point ∈ trace σ')
  /\ (forall σ σ1,
        poll w fuel (artifact_name (Z.of_nat viewsh + 1)) σ = (Done tt, σ1) ->
        exists σ2,
          collect w fuel (parse_points (v_out_ascii w)) viewsh σ = (Raised e, σ2)
          /\ trace σ2 = trace σ1 ++ [EStats (artifact_name (Z.of_nat viewsh + 1))]).
Proof.
  intros Hpt Hco. split; [|split].
  - intros o σ' H.
    assert (Ho : o <> Done tt).
    { intros ->.
      assert (Hlt : (viewsh < length (parse_points (v_out_ascii w)))%nat)
        by (eapply lookup_lt_Some; eauto).
      destruct (run_done_row _ _ _ _ H Hlt) as (rows & row & _ & _ & Hat).
      rewrite (coordinates_row _ _ _ _ _ Hpt Hco) in Hat. discriminate. }
    split; [exact Ho|]. apply rasterized_quiet. eapply run_stopped_quiet; eauto.
  - intros W c σ o σ' Hc H.
    apply submit_inv in H as [(e' & He' & _) | (c' & t & Hc' & _ & _ & _ & E & _)].
    + congruence.
    + assert (c' = c) as -> by congruence. rewrite E.
      apply elem_of_app. right. left.
  - intros σ σ1 Hp. unfold collect. rewrite (bind_eq_done _ _ _ _ _ Hp).
    unfold read_stats, bind, emit, ret, lift, Py.index at 1. rewrite Hpt.
    unfold coordinates_of in Hco.
    destruct (rbind (Py.index point 0) py_float) as [x|e0]; simpl in Hco.
    + destruct (rbind (Py.index point 1) py_float) as [y|e1]; simpl in Hco; [discriminate|].
      injection Hco as ->. eexists. split; reflexivity.
    + injection Hco as ->. eexists. split; reflexivity.
Qed.

(** ** The cut of the polling loop *)

Lemma poll_more_fuel (w : world) (fuel fuel' : nat) (name : string) (σ σ' : state)
    (o : outcome unit) :
  poll w fuel name σ = (o, σ') -> o <> Hang -> (fuel <= fuel')%nat ->
  poll w fuel' name σ = (o, σ').
Proof.
  revert fuel' σ. induction fuel as [|fuel IH]; simpl; intros fuel' σ H Ho Hle.
  - injection H as <- _. contradiction.
  - destruct fuel' as [|fuel']; [lia|]. simpl. unfold bind, lookup_file in *.
    destruct (find_file w (lookups σ) name); [exact H|].
    apply IH; [exact H|exact Ho|lia].
Qed.

Lemma collect_more_fuel (w : world) (fuel fuel' : nat) (pointList : list (list string))
    (viewsh : nat) (σ σ' : state) (o : outcome (float * float * Z)) :
  collect w fuel pointList viewsh σ = (o, σ') -> o <> Hang -> (fuel <= fuel')%nat ->
  collect w fuel' pointList viewsh σ = (o, σ').
Proof.
  unfold collect. intros H Ho Hle.
  apply bind_inv in H as [([] & σ1 & Hp & H) | [(e & Hp & ->) | [Hp ->]]].
  - rewrite (bind_eq_done _ _ _ _ _ (poll_more_fuel _ _ _ _ _ _ _ Hp ltac:(discriminate) Hle)).
    exact H.
  - exfalso. exact (poll_never_raises _ _ _ _ _ _ Hp).
  - contradiction.
Qed.

Lemma collect_all_more_fuel (w : world) (fuel fuel' : nat) (pointList : list (list string))
    (positions : list nat) (σ σ' : state) (o : outcome (list (float * float * Z))) :
  collect_all w fuel pointList positions σ = (o, σ') -> o <> Hang -> (fuel <= fuel')%nat ->
  collect_all w fuel' pointList positions σ = (o, σ').
Proof.
  intros H Ho Hle. revert σ σ' o H Ho.
  induction positions as [|viewsh positions IH]; simpl; intros σ σ' o H Ho; [exact H|].
  apply bind_inv in H as [(d & σ1 & Hd & H) | [(e & Hd & ->) | [Hd ->]]].
  - rewrite (bind_eq_done _ _ _ _ _ (collect_more_fuel _ _ _ _ _ _ _ _ Hd ltac:(discriminate) Hle)).
    apply bind_inv in H as [(ds & σ2 & Hds & H) | [(e & Hds & ->) | [Hds ->]]].
    + rewrite (bind_eq_done _ _ _ _ _ (IH _ _ _ Hds ltac:(discriminate))). exact H.
    + apply bind_eq_raised. apply IH; [exact Hds|discriminate].
    + contradiction.
  - apply bind_eq_raised. eapply collect_more_fuel; eauto.
  - contradiction.
Qed.

(** X12: the cut of the polling loop only decides how long the run is
    observed.  A run that has ended, by returning or by dying of an
    exception, ends in the same way, with the same calls, under any
    larger cut. *)
Theorem ended_run_independent_of_cut (w : world) (fuel fuel' : nat) (o : outcome unit)
    (σ' : state) :
  run w fuel = (o, σ') -> o <> Hang -> (fuel <= fuel')%nat ->
  run w fuel' = (o, σ').
Proof.
  rewrite !run_listed. intros H Ho Hle.
  apply bind_inv in H as [(W & σ0 & Hl & H) | [(e & Hl & ->) | [Hl ->]]].
  - rewrite (bind_eq_done _ _ _ _ _ Hl).
    apply bind_inv in H as [([] & σ1 & Hs & H) | [(e & Hs & ->) | [Hs ->]]].
    + rewrite (bind_eq_done _ _ _ _ _ Hs).
      apply bind_inv in H as [(rows & σ2 & Hc & H) | [(e & Hc & ->) | [Hc ->]]].
      * rewrite (bind_eq_done _ _ _ _ _
                   (collect_all_more_fuel _ _ _ _ _ _ _ _ Hc ltac:(discriminate) Hle)).
        exact H.
      * apply bind_eq_raised. eapply collect_all_more_fuel; eauto.
      * contradiction.
    + apply bind_eq_raised. exact Hs.
    + contradiction.
  - apply bind_eq_raised. exact Hl.
  - contradiction.
Qed.

(** ** Numbers and their decimal text *)

Lemma digits_step (c : ascii) (s : string) (acc : Z) :
  Py.is_digit c = true ->
  Py.digits acc (String c s) = Py.digits (10 * acc + Py.digit_value c) s.
Proof. intros H. simpl. rewrite H. reflexivity. Qed.

Ltac digit_case IH :=
  rewrite digits_step by reflexivity;
  match goal with
  | |- context [Py.digit_value ?c] =>
      let v := eval vm_compute in (Py.digit_value c) in
      change (Py.digit_value c) with v
  end;
  rewrite <- IH; f_equal; lia.

Lemma digits_uint_acc (d : Decimal.uint) (acc : positive) :
  Py.digits (Z.pos acc) (NilEmpty.string_of_uint d) = Some (Z.pos (Pos.of_uint_acc d acc)).
Proof.
  revert acc. induction d as [|d IH|d IH|d IH|d IH|d IH|d IH|d IH|d IH|d IH|d IH];
    intros acc; cbn [NilEmpty.string_of_uint Pos.of_uint_acc];
    [reflexivity | digit_case IH ..].
Qed.

Lemma digits_uint (d : Decimal.uint) :
  Py.digits 0 (NilEmpty.string_of_uint d) = Some (Z.of_N (Pos.of_uint d)).
Proof.
  induction d as [|d IH|d IH|d IH|d IH|d IH|d IH|d IH|d IH|d IH|d IH];
    cbn [NilEmpty.string_of_uint Pos.of_uint];
    [reflexivity | rewrite digits_step by reflexivity; exact IH
     | rewrite digits_step by reflexivity; apply digits_uint_acc ..].
Qed.

Lemma all_digits_uint (d : Decimal.uint) : all_digits (NilEmpty.string_of_uint d) = true.
Proof. induction d; simpl; auto. Qed.

Lemma lstrip_digits (s : string) : all_digits s = true -> Py.lstrip s = s.
Proof.
  destruct s as [|c s]; [reflexivity|]. simpl. intros H.
  apply andb_true_iff in H as [Hc _]. rewrite (digit_not_space _ Hc). reflexivity.
Qed.

Lemma int_of_digits (s : string) (v : Z) :
  unsigned_numeral s = true -> Py.digits 0 s = Some v -> Py.int s = Ok v.
Proof.
  intros H Hv. destruct (int_unsigned s H) as (v' & Hi & _).
  unfold unsigned_numeral in H. apply andb_true_iff in H as [Hne Hd].
  rewrite Hi. f_equal.
  unfold Py.int in Hi. rewrite (lstrip_digits _ Hd) in Hi.
  destruct s as [|c s]; [discriminate|].
  assert (Hsign : match String c s with
                  | String "-" r => (true, Py.lstrip r)
                  | String "+" r => (false, Py.lstrip r)
                  | _ => (false, String c s)
                  end = (false, String c s)).
  { simpl in Hd. apply andb_true_iff in Hd as [Hc _].
    destruct c as [[] [] [] [] [] [] [] []]; try reflexivity; discriminate Hc. }
  rewrite Hsign, (rstrip_all_digits _ Hd), Hv in Hi. congruence.
Qed.

Lemma int_minus_digits (s : string) (v : Z) :
  unsigned_numeral s = true -> Py.digits 0 s = Some v -> Py.int (String "-" s) = Ok (- v).
Proof.
  intros H Hv. unfold unsigned_numeral in H. apply andb_true_iff in H as [Hne Hd].
  unfold Py.int. change (Py.lstrip (String "-" s)) with (String "-" s).
  cbv beta iota zeta. rewrite (lstrip_digits _ Hd), (rstrip_all_digits _ Hd).
  destruct s as [|c s]; [discriminate|]. rewrite Hv. reflexivity.
Qed.

Lemma uint_text_nonempty (d : Decimal.uint) :
  d <> Decimal.Nil -> nonempty (NilEmpty.string_of_uint d) = true.
Proof. destruct d; [contradiction|reflexivity..]. Qed.

Lemma int_str (z : Z) : Py.int (Py.str z) = Ok z.
Proof.
  unfold Py.str. destruct z as [|p|p]; [reflexivity| |]; cbn [Z.to_int NilEmpty.string_of_int].
  - rewrite (int_of_digits _ (Z.pos p)); [reflexivity| |].
    + unfold unsigned_numeral.
      rewrite uint_text_nonempty by apply DecimalPos.Unsigned.to_uint_nonnil.
      apply all_digits_uint.
    + rewrite digits_uint, DecimalPos.Unsigned.of_to. reflexivity.
  - rewrite (int_minus_digits _ (Z.pos p)); [reflexivity| |].
    + unfold unsigned_numeral.
      rewrite uint_text_nonempty by apply DecimalPos.Unsigned.to_uint_nonnil.
      apply all_digits_uint.
    + rewrite digits_uint, DecimalPos.Unsigned.of_to. reflexivity.
Qed.

(** X13: [int(str(n))] is [n] for every integer, so the number of a
    line survives the way from the listing to the name of the raster:
    a line whose third field is the decimal text of [n] gets its job
    started, the job writes the raster ["tempViewsh"] followed by
    that very field, and its coordinates are the first two fields
    joined by a comma. *)
Theorem number_round_trip (w : world) (W : Z) (x y : string) (n : Z)
    (more : list string) (σ : state) :
  Py.int (Py.str n) = Ok n
  /\ point_count (x :: y :: Py.str n :: more) = Ok n
  /\ EStart (spawned σ) (options w "rast") (flagstring w +:+ "b")
            ("tempViewsh" +:+ Py.str n) (x +:+ "," +:+ y) (viewshed_options (options w))
     ∈ trace (snd (submit w W (x :: y :: Py.str n :: more) σ)).
Proof.
  assert (Hc : point_count (x :: y :: Py.str n :: more) = Ok n)
    by (unfold point_count; simpl; apply int_str).
  split; [apply int_str|]. split; [exact Hc|].
  destruct (submit w W (x :: y :: Py.str n :: more) σ) as [o σ'] eqn:H.
  apply submit_inv in H as [(e & He & _) | (c & t & Hc' & _ & _ & _ & E & _)].
  - congruence.
  - assert (c = n) as -> by congruence. simpl. rewrite E.
    apply elem_of_app. right. left.
Qed.

(** ** Splitting and joining *)

Lemma append_cons (c : ascii) (s t : string) : String c s +:+ t = String c (s +:+ t).
Proof. reflexivity. Qed.

Lemma append_nil_l (t : string) : "" +:+ t = t.
Proof. reflexivity. Qed.

Lemma append_assoc (s t u : string) : (s +:+ t) +:+ u = s +:+ (t +:+ u).
Proof. induction s as [|c s IH]; [reflexivity|]. rewrite !append_cons, IH. reflexivity. Qed.

Lemma concat_cons2 (sep x y : string) (l : list string) :
  String.concat sep (x :: y :: l) = x +:+ sep +:+ String.concat sep (y :: l).
Proof. reflexivity. Qed.

Lemma all_chars_app (P : ascii -> bool) (s t : string) :
  all_chars P (s +:+ t) = all_chars P s && all_chars P t.
Proof.
  induction s as [|c s IH]; [reflexivity|].
  rewrite append_cons. simpl. rewrite IH, andb_assoc. reflexivity.
Qed.

Lemma all_chars_impl (P Q : ascii -> bool) (s : string) :
  (forall c, P c = true -> Q c = true) -> all_chars P s = true -> all_chars Q s = true.
Proof.
  intros HPQ. induction s as [|c s IH]; [reflexivity|]. simpl. intros H.
  apply andb_true_iff in H as [Hc Hs]. rewrite (HPQ _ Hc), (IH Hs). reflexivity.
Qed.

Lemma split_not_nil (sep : ascii) (s : string) : Py.split sep s <> [].
Proof.
  induction s as [|c s IH]; simpl; [discriminate|].
  destruct (Ascii.eqb c sep); [discriminate|].
  destruct (Py.split sep s); [contradiction|discriminate].
Qed.

Lemma split_plain (sep : ascii) (s : string) :
  all_chars (not_char sep) s = true -> Py.split sep s = [s].
Proof.
  induction s as [|c s IH]; [reflexivity|]. simpl. intros H.
  apply andb_true_iff in H as [Hc Hs]. unfold not_char in Hc.
  apply negb_true_iff in Hc. rewrite Hc, (IH Hs). reflexivity.
Qed.

Lemma split_app (sep : ascii) (s rest : string) :
  all_chars (not_char sep) s = true ->
  Py.split sep (s +:+ String sep rest) = s :: Py.split sep rest.
Proof.
  induction s as [|c s IH]; intros H.
  - rewrite append_nil_l. simpl. rewrite Ascii.eqb_refl. reflexivity.
  - simpl in H. apply andb_true_iff in H as [Hc Hs]. unfold not_char in Hc.
    apply negb_true_iff in Hc. rewrite append_cons. simpl. rewrite Hc, (IH Hs). reflexivity.
Qed.

Lemma join_split (sep : ascii) (s : string) :
  String.concat (String sep "") (Py.split sep s) = s.
Proof.
  induction s as [|c s IH]; [reflexivity|]. simpl.
  pose proof (split_not_nil sep s) as Hn.
  destruct (Py.split sep s) as [|f fs] eqn:Hs; [contradiction|].
  destruct (Ascii.eqb c sep) eqn:Hc.
  - apply Ascii.eqb_eq in Hc as ->. rewrite concat_cons2, IH. reflexivity.
  - destruct fs as [|g fs].
    + simpl in *. rewrite IH. reflexivity.
    + rewrite concat_cons2 in *. rewrite append_cons, IH. reflexivity.
Qed.

Lemma split_fields (P : ascii -> bool) (sep : ascii) (s : string) :
  all_chars P s = true ->
  Forall (fun f => all_chars P f = true /\ all_chars (not_char sep) f = true) (Py.split sep s).
Proof.
  induction s as [|c s IH]; simpl; intros H.
  - repeat constructor.
  - apply andb_true_iff in H as [Hc Hs]. specialize (IH Hs).
    destruct (Ascii.eqb c sep) eqn:Hsep.
    + constructor; [split; reflexivity|exact IH].
    + destruct (Py.split sep s) as [|f fs]; [repeat constructor; simpl; rewrite ?Hc; auto;
        unfold not_char; rewrite Hsep; reflexivity|].
      inversion IH as [|? ? [Hf1 Hf2] Hfs]; subst. constructor; [|exact Hfs].
      simpl. unfold not_char at 1. rewrite Hc, Hsep, Hf1, Hf2. auto.
Qed.

Lemma lstrip_chars (P : ascii -> bool) (s : string) :
  all_chars P s = true -> all_chars P (Py.lstrip s) = true.
Proof.
  induction s as [|c s IH]; [reflexivity|]. simpl. intros H.
  apply andb_true_iff in H as [Hc Hs].
  destruct (Py.is_space c); [auto|]. simpl. rewrite Hc, Hs. reflexivity.
Qed.

Lemma rstrip_chars (P : ascii -> bool) (s : string) :
  all_chars P s = true -> all_chars P (Py.rstrip s) = true.
Proof.
  induction s as [|c s IH]; [reflexivity|]. simpl. intros H.
  apply andb_true_iff in H as [Hc Hs]. specialize (IH Hs).
  destruct (Py.rstrip s) as [|d r].
  - destruct (Py.is_space c); [reflexivity|]. simpl. rewrite Hc. reflexivity.
  - simpl in *. rewrite Hc, IH. reflexivity.
Qed.

Lemma splitlines_chars (s : string) :
  Forall (fun l => all_chars not_break l = true) (Py.splitlines s).
Proof.
  assert (Hgen : forall s, Forall (fun l => all_chars not_break l = true) (Py.splitlines s)
                           /\ forall c s', s = String c s' ->
                                Forall (fun l => all_chars not_break l = true)
                                       (Py.splitlines s')).
  { clear s. induction s as [|c s [IH _]].
    - split; [constructor|discriminate].
    - split; [|intros c' s' [= <- <-]; exact IH].
      simpl. destruct (Ascii.eqb c Py.LF) eqn:HLF; [constructor; auto|].
      destruct (Ascii.eqb c Py.CR) eqn:HCR.
      + destruct s as [|c' s'']; [repeat constructor|].
        destruct (Ascii.eqb c' Py.LF) eqn:HLF'; [|constructor; auto].
        constructor; [reflexivity|].
        simpl in IH. rewrite HLF' in IH. inversion IH; assumption.
      + destruct (Py.splitlines s) as [|l ls].
        * repeat constructor. simpl. unfold not_break. rewrite HLF, HCR. reflexivity.
        * inversion IH as [|? ? Hl Hls]; subst. constructor; [|exact Hls].
          simpl. unfold not_break at 1. rewrite HLF, HCR, Hl. reflexivity. }
  apply Hgen.
Qed.

(** X14: what the parsing of the listing keeps.  Every point has at
    least one field; no field holds a comma or a line break; and
    joining the fields of a point with commas gives back the stripped
    line it was read from: nothing of a line is dropped but the
    whitespace at its two ends. *)
Theorem parse_points_keeps_lines (listing : string) (p : list string) :
  In p (parse_points listing) ->
  p <> []
  /\ Forall (fun f => all_chars not_break f = true /\ all_chars (not_char ",") f = true) p
  /\ exists line, In line (Py.splitlines (Py.strip listing))
                  /\ line <> ""
                  /\ String.concat "," p = Py.strip line.
Proof.
  unfold parse_points. rewrite in_map_iff. intros (line & <- & Hin).
  apply filter_In in Hin as [Hin Hne]. split; [apply split_not_nil|]. split.
  - apply split_fields. unfold Py.strip. apply rstrip_chars, lstrip_chars.
    pose proof (splitlines_chars (Py.strip listing)) as Hall.
    rewrite List.Forall_forall in Hall. apply Hall. exact Hin.
  - exists line. split; [exact Hin|]. split; [intros ->; discriminate|].
    apply (join_split ","%char).
Qed.

Lemma space_is_break_free (c : ascii) : not_space c = true -> not_break c = true.
Proof.
  unfold not_space, not_break, Py.is_space. intros H.
  apply negb_true_iff, orb_false_iff in H as [_ H].
  destruct (Ascii.eqb c Py.LF) eqn:HLF; [apply Ascii.eqb_eq in HLF as ->; discriminate H|].
  destruct (Ascii.eqb c Py.CR) eqn:HCR; [apply Ascii.eqb_eq in HCR as ->; discriminate H|].
  reflexivity.
Qed.

Lemma rstrip_not_space (s : string) : all_chars not_space s = true -> Py.rstrip s = s.
Proof.
  induction s as [|c s IH]; simpl; [reflexivity|].
  intros H. apply andb_true_iff in H as [Hc Hs].
  rewrite (IH Hs). destruct s; [|reflexivity].
  unfold not_space in Hc. apply negb_true_iff in Hc. rewrite Hc. reflexivity.
Qed.

Lemma lstrip_not_space (s : string) : all_chars not_space s = true -> Py.lstrip s = s.
Proof.
  destruct s as [|c s]; [reflexivity|]. simpl. intros H.
  apply andb_true_iff in H as [Hc _].
  unfold not_space in Hc. apply negb_true_iff in Hc. rewrite Hc. reflexivity.
Qed.

Lemma rstrip_app_kept (s r : string) :
  Py.rstrip r = r -> nonempty r = true -> Py.rstrip (s +:+ r) = s +:+ r.
Proof.
  intros Hr Hne. induction s as [|c s IH]; [exact Hr|].
  rewrite append_cons. simpl. rewrite IH.
  destruct (s +:+ r) eqn:E; [|reflexivity].
  destruct s; [rewrite append_nil_l in E; subst r; discriminate|discriminate].
Qed.

Lemma rstrip_app_newline (s : string) : Py.rstrip (s +:+ NL) = Py.rstrip s.
Proof.
  induction s as [|c s IH]; [reflexivity|].
  rewrite append_cons. simpl. rewrite IH. reflexivity.
Qed.

Lemma nonempty_app_l (s t : string) : nonempty s = true -> nonempty (s +:+ t) = true.
Proof. destruct s; [discriminate|reflexivity]. Qed.

Lemma splitlines_single (l : string) :
  nonempty l = true -> all_chars not_break l = true -> Py.splitlines l = [l].
Proof.
  induction l as [|c l IH]; [discriminate|]. intros _ H. simpl in H.
  apply andb_true_iff in H as [Hc Hl]. unfold not_break in Hc.
  apply andb_true_iff in Hc as [HLF HCR]. apply negb_true_iff in HLF, HCR.
  simpl. rewrite HLF, HCR. destruct l as [|d l]; [reflexivity|].
  rewrite IH by (auto; reflexivity). reflexivity.
Qed.

Lemma splitlines_app (l rest : string) :
  all_chars not_break l = true ->
  Py.splitlines (l +:+ String Py.LF rest) = l :: Py.splitlines rest.
Proof.
  induction l as [|c l IH]; intros H.
  - rewrite append_nil_l. reflexivity.
  - simpl in H. apply andb_true_iff in H as [Hc Hl]. unfold not_break in Hc.
    apply andb_true_iff in Hc as [HLF HCR]. apply negb_true_iff in HLF, HCR.
    rewrite append_cons. simpl. rewrite HLF, HCR, (IH Hl). reflexivity.
Qed.

(** The lines of a listing: not empty and without whitespace. *)
Lemma joined_lines (lines : list string) :
  lines <> [] ->
  Forall (fun l => nonempty l = true /\ all_chars not_space l = true) lines ->
  nonempty (String.concat NL lines) = true
  /\ Py.lstrip (String.concat NL lines) = String.concat NL lines
  /\ Py.rstrip (String.concat NL lines) = String.concat NL lines
  /\ Py.splitlines (String.concat NL lines) = lines.
Proof.
  intros Hne Hall. induction Hall as [|l lines [Hl1 Hl2] Hall IH]; [contradiction|].
  assert (Hb : all_chars not_break l = true)
    by (eapply all_chars_impl; [apply space_is_break_free|exact Hl2]).
  destruct lines as [|l' lines].
  - simpl. split; [exact Hl1|]. split; [apply lstrip_not_space; exact Hl2|].
    split; [apply rstrip_not_space; exact Hl2|]. apply splitlines_single; assumption.
  - destruct IH as (IH1 & _ & IH3 & IH4); [discriminate|].
    rewrite concat_cons2. split; [apply nonempty_app_l; exact Hl1|]. split; [|split].
    + destruct l as [|c l]; [discriminate|]. rewrite append_cons. simpl. simpl in Hl2.
      apply andb_true_iff in Hl2 as [Hc _]. unfold not_space in Hc.
      apply negb_true_iff in Hc. rewrite Hc. reflexivity.
    + apply rstrip_app_kept.
      * apply (rstrip_app_kept NL); assumption.
      * reflexivity.
    + unfold NL at 1. rewrite append_cons, append_nil_l, splitlines_app by exact Hb.
      rewrite IH4. reflexivity.
Qed.

Lemma joined_fields (p : list string) :
  p <> [] -> Forall (fun f => plain_field f = true) p ->
  nonempty (String.concat "," p) = true
  /\ all_chars not_space (String.concat "," p) = true
  /\ Py.split "," (String.concat "," p) = p.
Proof.
  intros Hne Hall. induction Hall as [|f p Hf Hall IH]; [contradiction|].
  unfold plain_field in Hf. apply andb_true_iff in Hf as [Hf Hf3].
  apply andb_true_iff in Hf as [Hf1 Hf2].
  destruct p as [|g p].
  - simpl. split; [exact Hf1|]. split; [exact Hf2|]. apply split_plain. exact Hf3.
  - destruct IH as (IH1 & IH2 & IH3); [discriminate|].
    rewrite concat_cons2. split; [apply nonempty_app_l; exact Hf1|]. split.
    + rewrite !all_chars_app, Hf2, IH2. reflexivity.
    + rewrite append_cons, append_nil_l, split_app by exact Hf3. rewrite IH3. reflexivity.
Qed.

(** X15: the parsing reads back what the point format writes.  For
    points that have at least one field each, the fields not empty
    and without whitespace or comma, the listing with one line for
    each point, its fields joined by commas, is parsed into exactly
    these points, in the same order. *)
Theorem listing_round_trip (points : list (list string)) :
  Forall (fun p => p <> [] /\ Forall (fun f => plain_field f = true) p) points ->
  parse_points (listing_of points) = points.
Proof.
  intros Hall. unfold parse_points, listing_of.
  destruct points as [|p0 points]; [reflexivity|].
  set (pts := p0 :: points) in *.
  assert (Hlines : Forall (fun l => nonempty l = true /\ all_chars not_space l = true)
                          (String.concat "," <$> pts)).
  { apply Forall_fmap. eapply Forall_impl; [exact Hall|].
    intros p [Hne Hp]. simpl. destruct (joined_fields p Hne Hp) as (H1 & H2 & _). auto. }
  destruct (joined_lines (String.concat "," <$> pts)) as (H1 & H2 & H3 & H4);
    [discriminate|exact Hlines|].
  assert (Hstrip : Py.strip (String.concat NL (String.concat "," <$> pts) +:+ NL)
                   = String.concat NL (String.concat "," <$> pts)).
  { unfold Py.strip.
    assert (Hl : Py.lstrip (String.concat NL (String.concat "," <$> pts) +:+ NL)
                 = String.concat NL (String.concat "," <$> pts) +:+ NL).
    { destruct (String.concat NL (String.concat "," <$> pts)) as [|c s]; [discriminate|].
      rewrite append_cons. simpl in H2 |- *. destruct (Py.is_space c); [|reflexivity].
      exfalso. clear -H2.
      assert (Hlen : (String.length (Py.lstrip s) <= String.length s)%nat).
      { clear. induction s as [|c s IH]; [reflexivity|]. simpl.
        destruct (Py.is_space c); simpl; lia. }
      rewrite H2 in Hlen. simpl in Hlen. lia. }
    rewrite Hl, rstrip_app_newline. exact H3. }
  rewrite Hstrip, H4.
  assert (Hfilter : List.filter nonempty (String.concat "," <$> pts) = String.concat "," <$> pts).
  { clear -Hlines. induction Hlines as [|l ls [Hl _] _ IH]; [reflexivity|].
    simpl. rewrite Hl, IH. reflexivity. }
  rewrite Hfilter. clear -Hall.
  induction Hall as [|p ps [Hne Hp] _ IH]; [reflexivity|].
  cbn [fmap list_fmap List.map]. f_equal; [|exact IH].
  destruct (joined_fields p Hne Hp) as (_ & Hs & Hsplit).
  unfold Py.strip. rewrite (lstrip_not_space _ Hs), (rstrip_not_space _ Hs). exact Hsplit.
Qed.

Lemma str_not_space (n : Z) : all_chars not_space (Py.str n) = true.
Proof.
  assert (Hd : forall d, all_chars not_space (NilEmpty.string_of_uint d) = true)
    by (induction d; simpl; auto).
  unfold Py.str. destruct n as [|p|p]; [reflexivity|apply Hd|].
  cbn [Z.to_int NilEmpty.string_of_int all_chars]. rewrite Hd. reflexivity.
Qed.

(** X16: the extraction reads back a count printed the way
    [r.stats -c] prints it.  For a report whose first line has no
    line break inside and whose second line is a category without
    whitespace, a space and the decimal text of [n], the extraction
    returns [n], whatever the first line says and whatever lines
    follow the second. *)
Theorem report_round_trip (line0 category : string) (n : Z) (more : list string) :
  all_chars not_break line0 = true ->
  all_chars not_space category = true ->
  extract_count (report (line0 :: (category +:+ " " +:+ Py.str n) :: more)) = Ok n.
Proof.
  intros H0 Hc.
  assert (Hline : all_chars not_break (category +:+ " " +:+ Py.str n) = true).
  { rewrite !all_chars_app.
    rewrite (all_chars_impl _ _ _ space_is_break_free Hc).
    rewrite (all_chars_impl _ _ _ space_is_break_free (str_not_space n)). reflexivity. }
  assert (Hsecond : exists rest,
             report (line0 :: (category +:+ " " +:+ Py.str n) :: more)
             = line0 +:+ String Py.LF ((category +:+ " " +:+ Py.str n) +:+ String Py.LF rest)).
  { unfold report. rewrite concat_cons2. destruct more as [|m more].
    - exists "". cbn [String.concat]. unfold NL.
      rewrite !append_assoc, !append_cons, !append_nil_l. reflexivity.
    - exists (String.concat (String Py.LF "") (m :: more) +:+ String Py.LF "").
      rewrite concat_cons2. unfold NL.
      rewrite !append_assoc, !append_cons, !append_nil_l. reflexivity. }
  destruct Hsecond as (rest & ->).
  apply extract_count_ok. exists (category +:+ " " +:+ Py.str n), (Py.str n).
  split; [|split].
  - rewrite splitlines_app by exact H0. rewrite splitlines_app by exact Hline. reflexivity.
  - change (category +:+ " " +:+ Py.str n) with (category +:+ String " " (Py.str n)).
    rewrite split_app.
    + rewrite split_plain; [reflexivity|].
      eapply all_chars_impl; [|apply (str_not_space n)].
      intros c Hs. unfold not_char. unfold not_space in Hs.
      destruct (Ascii.eqb c " ") eqn:E; [|reflexivity].
      apply Ascii.eqb_eq in E as ->. discriminate Hs.
    + eapply all_chars_impl; [|exact Hc].
      intros c Hs. unfold not_char. unfold not_space in Hs.
      destruct (Ascii.eqb c " ") eqn:E; [|reflexivity].
      apply Ascii.eqb_eq in E as ->. discriminate Hs.
  - apply int_str.
Qed.

End Scheduler.

Arguments EOutAscii {float} input.
Arguments EStart {float} h input flags output coordinates kwargs.
Arguments EWait {float} h.
Arguments EFindFile {float} name found.
Arguments EStats {float} name.
Arguments EToRast {float} rows output status.
Arguments ERemove {float} type pattern status.
Arguments trace {float} s.
Arguments initial {float}.
Arguments running {float} t.
Arguments stats_names {float} t.
Arguments started_outputs {float} t.
Arguments rasterized {float} t.
Arguments job_start {float} w h count point.
Arguments batched_trace {float} w n pointList.
Arguments submit_all {float} w workers pointList.
Arguments poll {float} w fuel name.
Arguments collect {float} py_float w fuel pointList viewsh.
Arguments collect_all {float} py_float w fuel pointList positions.
Arguments run {float} py_float w fuel.
Arguments closing_events {float} w rows.
Arguments is_output {float} e.
Arguments row_at {float} py_float w pointList viewsh.
Arguments process {float} s.
Arguments spawned {float} s.
Arguments lookups {float} s.
Arguments submit {float} w workers point.
Arguments serial_step {float} w ip.
Arguments poll_block {float} name block.
Arguments coordinates_of {float} py_float point.
Arguments is_launch {float} e.
Arguments is_poll {float} e.
Arguments after {float} t0 σ.
Arguments listed {float} w.

(** * The properties on the sample sessions *)

(** ** The Python operations *)

Example strip_ex : Py.strip "  1,2,3 " = "1,2,3".
Proof. reflexivity. Qed.

Example split_ex :
  Py.split "," "10.5,20.3" = ["10.5"; "20.3"]
  /\ Py.split "," "" = [""] /\ Py.split "," "a,,b" = ["a"; ""; "b"].
Proof. repeat split; reflexivity. Qed.

Example splitlines_ex :
  Py.splitlines ("a" +:+ NL +:+ NL +:+ "b" +:+ NL) = ["a"; ""; "b"]
  /\ Py.splitlines "" = [].
Proof. split; reflexivity. Qed.

Example int_ex :
  Py.int " 12 " = Ok 12 /\ Py.int "-7" = Ok (-7) /\ Py.int "+ 3" = Ok 3
  /\ Py.int "" = Err ValueError /\ Py.int "1.5" = Err ValueError
  /\ Py.int "*" = Err ValueError /\ Py.int "007" = Ok 7.
Proof. repeat split; reflexivity. Qed.

Example str_ex : Py.str 0 = "0" /\ Py.str 12 = "12" /\ Py.str (-3) = "-3".
Proof. repeat split; reflexivity. Qed.

(** A line of spaces is not the empty string: it is kept, and gives a
    point with a single empty field. *)
Example blank_line_ex :
  parse_points ("1,2,1" +:+ NL +:+ NL +:+ "3,4,2") = [["1"; "2"; "1"]; ["3"; "4"; "2"]]
  /\ parse_points ("1,2,1" +:+ NL +:+ "  " +:+ NL +:+ "3,4,2")
     = [["1"; "2"; "1"]; [""]; ["3"; "4"; "2"]].
Proof. split; reflexivity. Qed.

(** ** The worker count *)

Lemma resolve_workers_guarded_witness :
  resolve_workers 4 (Some "2") = Ok 4
  /\ resolve_workers 1 (Some "3") = Ok 3
  /\ resolve_workers 0 None = Ok 1
  /\ 1 <= 3.
Proof.
  split; [|split; [|split]].
  - apply (resolve_workers_guarded 4 (Some "2")). right. discriminate.
  - rewrite (proj1 (proj2 (resolve_workers_guarded 1 (Some "3"))) "3" eq_refl eq_refl).
    reflexivity.
  - apply (resolve_workers_guarded 0 None). left. reflexivity.
  - apply (proj2 (proj2 (resolve_workers_guarded 1 (Some "3")))). reflexivity.
Defined.

(** With four processors the WORKERS setting 2 is not read: the
    worker count is 4. *)
Lemma workers_override_ignored :
  Py.int "2" = Ok 2
  /\ resolve_workers 4 (Some "2") = Ok 4
  /\ resolve_workers 4 (Some "2") <> Ok 2.
Proof.
  split; [reflexivity|]. split; [reflexivity|].
  intros H. vm_compute in H. discriminate.
Qed.

(** ** The schedule *)

Lemma concurrency_ceiling_witness :
  resolve_workers (cpu_count w_three) (environ_WORKERS w_three) = Ok 2
  /\ sequential (parse_points (v_out_ascii w_three))
  /\ forall fuel t,
       t `prefix_of` trace (snd (run decimal_float w_three fuel)) ->
       (size (running t) <= 2)%nat.
Proof.
  split; [reflexivity|]. split; [reflexivity|].
  apply (concurrency_ceiling Q decimal_float w_three 2); reflexivity.
Defined.

(** The listing carries the numbers 1, 3 and 5.  With two workers none
    of them is a multiple of the worker count: no wait is made, and
    from the third start on three processes are running. *)
Lemma ceiling_exceeded_on_sparse_numbers :
  resolve_workers (cpu_count w_sparse) (environ_WORKERS w_sparse) = Ok 2
  /\ fst (run decimal_float w_sparse 1) = Done tt
  /\ [EOutAscii "observers";
      EStart 0 "elevation" "b" "tempViewsh1" "1,1" (viewshed_options sample_options);
      EStart 1 "elevation" "b" "tempViewsh3" "2,2" (viewshed_options sample_options);
      EStart 2 "elevation" "b" "tempViewsh5" "3,3" (viewshed_options sample_options)]
     `prefix_of` trace (snd (run decimal_float w_sparse 1))
  /\ size (running
       [EOutAscii (float := Q) "observers";
        EStart 0 "elevation" "b" "tempViewsh1" "1,1" (viewshed_options sample_options);
        EStart 1 "elevation" "b" "tempViewsh3" "2,2" (viewshed_options sample_options);
        EStart 2 "elevation" "b" "tempViewsh5" "3,3" (viewshed_options sample_options)])
     = 3%nat
  /\ ~ (forall fuel t,
          t `prefix_of` trace (snd (run decimal_float w_sparse fuel)) ->
          (size (running t) <= 2)%nat).
Proof.
  split; [reflexivity|]. split; [reflexivity|].
  split; [eexists; vm_compute; reflexivity|]. split; [reflexivity|].
  intros H.
  specialize (H 1%nat (trace (snd (run decimal_float w_sparse 1))) (reflexivity _)).
  vm_compute in H. lia.
Qed.



(** ** The result sequence *)

Lemma results_complete_and_ordered_witness :
  fst (run decimal_float w_three 5) = Done tt
  /\ sequential (parse_points (v_out_ascii w_three))
  /\ exists rows,
       rasterized (trace (snd (run decimal_float w_three 5))) = [rows]
       /\ length rows = 3%nat
       /\ stats_names (trace (snd (run decimal_float w_three 5)))
          = ["tempViewsh1"; "tempViewsh2"; "tempViewsh3"]
       /\ rasterized (trace (snd (run decimal_float w_three_reversed 9))) = [rows]
       /\ started_outputs (trace (snd (run decimal_float w_three 5)))
          = stats_names (trace (snd (run decimal_float w_three 5))).
Proof.
  split; [reflexivity|]. split; [reflexivity|].
  destruct (results_complete_and_ordered Q decimal_float w_three 5
              (snd (run decimal_float w_three 5)))
    as (rows & Hr & Hlen & Hs & _ & _ & Htiming & _ & Hiff); [vm_compute; reflexivity|].
  exists rows. split; [exact Hr|]. split; [exact Hlen|]. split; [rewrite Hs; reflexivity|].
  split.
  - apply (Htiming w_three_reversed 9%nat).
    + repeat split; reflexivity.
    + vm_compute. reflexivity.
  - apply (proj2 Hiff). reflexivity.
Defined.

(** The listing carries the numbers 1 and 3.  The run returns with two
    rows, read from the rasters [tempViewsh1] and [tempViewsh2]: the
    job 3, which wrote [tempViewsh3], has no row, and the second row
    pairs the coordinates of the job 3 with the count of a raster that
    no job of this run wrote. *)
Lemma results_not_one_per_job :
  parse_points (v_out_ascii w_gap) = [["1"; "1"; "1"]; ["2"; "2"; "3"]]
  /\ fst (run decimal_float w_gap 1) = Done tt
  /\ started_outputs (trace (snd (run decimal_float w_gap 1)))
     = ["tempViewsh1"; "tempViewsh3"]
  /\ stats_names (trace (snd (run decimal_float w_gap 1)))
     = ["tempViewsh1"; "tempViewsh2"]
  /\ rasterized (trace (snd (run decimal_float w_gap 1)))
     = [[(1%Q, 1%Q, 11); (2%Q, 2%Q, 22)]]
  /\ extract_count (r_stats w_gap "tempViewsh3") = Ok 33.
Proof. repeat split; reflexivity. Qed.

(** The two lines carry the numbers 2 and 1.  The run returns; its
    rows come in line order, the row with the coordinates of the job 2
    before the row with the coordinates of the job 1, and each carries
    the count of the raster that the other job wrote. *)
Example rows_in_line_order :
  job_number <$> parse_points (v_out_ascii w_swapped) = [2; 1]
  /\ fst (run decimal_float w_swapped 1) = Done tt
  /\ started_outputs (trace (snd (run decimal_float w_swapped 1)))
     = ["tempViewsh2"; "tempViewsh1"]
  /\ stats_names (trace (snd (run decimal_float w_swapped 1)))
     = ["tempViewsh1"; "tempViewsh2"]
  /\ rasterized (trace (snd (run decimal_float w_swapped 1)))
     = [[(1%Q, 1%Q, 11); (2%Q, 2%Q, 22)]].
Proof. repeat split; reflexivity. Qed.


(** ** The polling loop *)



(** ** Failures *)

Lemma listing_checked_line_by_line_witness :
  point_count ["10.5"; "20.3"] = Err IndexError
  /\ forall fuel,
       fst (run decimal_float w_short_line fuel) = Raised IndexError
       /\ started_outputs (trace (snd (run decimal_float w_short_line fuel)))
          = ["tempViewsh1"].
Proof.
  split; [reflexivity|]. intros fuel.
  destruct (listing_checked_line_by_line Q decimal_float w_short_line fuel) as (_ & _ & H).
  edestruct (H 2 [["1.5"; "2.5"; "1"]] ["10.5"; "20.3"] [] IndexError) as [Hrun _].
  - reflexivity.
  - reflexivity.
  - vm_compute. reflexivity.
  - reflexivity.
  - rewrite Hrun. split; reflexivity.
Defined.

(** The line ["10.5,20.3"] comes second: the run dies of the
    [IndexError] only after the job of the first line has been
    started. *)
Lemma malformed_line_after_first_job :
  parse_points (v_out_ascii w_short_line) = [["1.5"; "2.5"; "1"]; ["10.5"; "20.3"]]
  /\ fst (run decimal_float w_short_line 1) = Raised IndexError
  /\ trace (snd (run decimal_float w_short_line 1))
     = [EOutAscii "observers";
        EStart 0 "elevation" "b" "tempViewsh1" "1.5,2.5" (viewshed_options sample_options)].
Proof. repeat split; reflexivity. Qed.

Lemma extraction_is_positional_witness :
  (1 < length (parse_points (v_out_ascii w_broken_report)))%nat
  /\ extract_count (r_stats w_broken_report (artifact_name (Z.of_nat 1 + 1))) = Err IndexError
  /\ forall fuel,
       fst (run decimal_float w_broken_report fuel) <> Done tt
       /\ rasterized (trace (snd (run decimal_float w_broken_report fuel))) = [].
Proof.
  split; [vm_compute; lia|]. split; [reflexivity|]. intros fuel.
  destruct (extraction_is_positional Q decimal_float w_broken_report fuel) as (_ & H & _).
  apply (H 1%nat IndexError).
  - vm_compute. lia.
  - reflexivity.
  - apply surjective_pairing.
Defined.

(** The report has no line for the visible cells, yet nothing fails:
    the count of the null cells is recorded and converted. *)
Lemma missing_visible_row_goes_unnoticed :
  has_visible_row (r_stats w_null_row "tempViewsh1") = false
  /\ extract_count (r_stats w_null_row "tempViewsh1") = Ok 50
  /\ fst (run decimal_float w_null_row 1) = Done tt
  /\ rasterized (trace (snd (run decimal_float w_null_row 1))) = [[(1%Q, 2%Q, 50)]].
Proof. repeat split; reflexivity. Qed.

Lemma counts_read_from_second_row_witness :
  fst (run decimal_float w_three 5) = Done tt
  /\ exists rows,
       rasterized (trace (snd (run decimal_float w_three 5))) = [rows]
       /\ forall viewsh x y c, rows !! viewsh = Some (x, y, c) -> 0 <= c.
Proof.
  split; [reflexivity|].
  destruct (counts_read_from_second_row Q decimal_float w_three 5
              (snd (run decimal_float w_three 5)))
    as (rows & Hr & Hrows); [vm_compute; reflexivity|].
  exists rows. split; [exact Hr|]. intros viewsh x y c Hrow.
  destruct (Hrows _ _ _ _ Hrow) as (line & field & Hl & Hf & _ & Hu & _).
  apply Hu. vm_compute in Hl. injection Hl as <-.
  vm_compute in Hf. injection Hf as <-. reflexivity.
Defined.

(** The observer sees no cell: the report has the line of the
    invisible cells only, and the run dies of an [IndexError] instead
    of recording the count 0. *)
Lemma occluded_observer_raises :
  has_visible_row (r_stats w_occluded "tempViewsh1") = false
  /\ extract_count (r_stats w_occluded "tempViewsh1") = Err IndexError
  /\ fst (run decimal_float w_occluded 1) = Raised IndexError
  /\ rasterized (trace (snd (run decimal_float w_occluded 1))) = [].
Proof. repeat split; reflexivity. Qed.

Lemma cleanup_only_after_success_witness :
  fst (run decimal_float w_broken_report 1) = Raised IndexError
  /\ exit_code (fst (run decimal_float w_broken_report 1)) = Some 1
  /\ Forall (fun e => ~ is_output e) (trace (snd (run decimal_float w_broken_report 1))).
Proof.
  split; [reflexivity|].
  apply (cleanup_only_after_success Q decimal_float w_broken_report 1 (Raised IndexError)).
  vm_compute. reflexivity.
Defined.

(** The run dies at the report of the second job: the rasters of both
    jobs have been written, and no removal is called. *)
Lemma artifacts_left_after_failure :
  fst (run decimal_float w_broken_report 1) = Raised IndexError
  /\ trace (snd (run decimal_float w_broken_report 1))
     = [EOutAscii "observers";
        EStart 0 "elevation" "b" "tempViewsh1" "1,2" (viewshed_options sample_options);
        EWait 0;
        EStart 1 "elevation" "b" "tempViewsh2" "3,4" (viewshed_options sample_options);
        EWait 1;
        EFindFile "tempViewsh1" true; EStats "tempViewsh1";
        EFindFile "tempViewsh2" true; EStats "tempViewsh2"]
  /\ forall status, ~ ERemove "raster" "tempViewsh*" status
                      ∈ trace (snd (run decimal_float w_broken_report 1)).
Proof.
  split; [reflexivity|]. split; [reflexivity|].
  intros status Hin. vm_compute in Hin.
  repeat (apply elem_of_cons in Hin as [Hin|Hin]; [discriminate|]).
  inversion Hin.
Qed.

(** * Further properties on the sample sessions *)

(** ** The setting up of a run *)

Lemma jobs_get_the_five_options_witness :
  "elevation" = options w_flags "rast"
  /\ dom (viewshed_options sample_options) = list_to_set option_keys
  /\ viewshed_options sample_options !! "memory" = Some "500"
  /\ viewshed_options sample_options !! "output" = None.
Proof.
  destruct (jobs_get_the_five_options Q decimal_float w_flags 5
              (fst (run decimal_float w_flags 5)) (snd (run decimal_float w_flags 5))
              (surjective_pairing _)) as (_ & _ & H).
  destruct (H 0%nat "elevation" "rcb" "tempViewsh7" "1,2" (viewshed_options sample_options))
    as (Hin & Hdom & Hk).
  { vm_compute. apply list_elem_of_further, list_elem_of_here. }
  split; [exact Hin|]. split; [exact Hdom|].
  split; [rewrite Hk; reflexivity|rewrite Hk; reflexivity].
Defined.

Lemma bad_workers_setting_stops_run_witness :
  Py.int "two" = Err ValueError
  /\ run decimal_float w_bad_workers 3
     = (Raised ValueError,
        {| process := ∅; spawned := 0; lookups := 0; trace := [EOutAscii "observers"] |}).
Proof.
  split; [reflexivity|].
  apply (bad_workers_setting_stops_run Q decimal_float w_bad_workers 3 "two" ValueError);
    reflexivity.
Defined.

Lemma empty_listing_run_witness :
  parse_points (v_out_ascii w_empty) = []
  /\ run decimal_float w_empty 0
     = (Done tt, {| process := ∅; spawned := 0; lookups := 0;
                    trace := EOutAscii "observers" :: closing_events w_empty [] |}).
Proof.
  split; [reflexivity|].
  apply (empty_listing_run Q decimal_float w_empty 0 2); reflexivity.
Defined.

Lemma jobs_share_flags_witness :
  "rcb" = (if flag_r w_flags then "r" else "") +:+ (if flag_c w_flags then "c" else "") +:+ "b"
  /\ "rcb" ∈ ["b"; "rb"; "cb"; "rcb"]
  /\ exists c : Z, "tempViewsh7" = "tempViewsh" +:+ Py.str c.
Proof.
  apply (jobs_share_flags Q decimal_float w_flags 5
           (fst (run decimal_float w_flags 5)) (snd (run decimal_float w_flags 5))
           (surjective_pairing _) 0%nat "elevation" "rcb" "tempViewsh7" "1,2"
           (viewshed_options sample_options)).
  vm_compute. apply list_elem_of_further, list_elem_of_here.
Defined.

(** ** The listing and the reports *)

Lemma parse_points_keeps_lines_witness :
  ["3"; "4"; "2"] <> []
  /\ Forall (fun f => all_chars not_break f = true /\ all_chars (not_char ",") f = true)
       ["3"; "4"; "2"]
  /\ exists line,
       In line (Py.splitlines (Py.strip ("1.5,2.5,1" +:+ NL +:+ " 3,4,2  " +:+ NL)))
       /\ line <> ""
       /\ String.concat "," ["3"; "4"; "2"] = Py.strip line.
Proof.
  apply (parse_points_keeps_lines ("1.5,2.5,1" +:+ NL +:+ " 3,4,2  " +:+ NL)).
  vm_compute. right. left. reflexivity.
Defined.

Lemma listing_round_trip_witness :
  parse_points (listing_of [["1.5"; "2.5"; "1"]; ["3"; "4"; "2"]])
  = [["1.5"; "2.5"; "1"]; ["3"; "4"; "2"]].
Proof.
  apply (listing_round_trip [["1.5"; "2.5"; "1"]; ["3"; "4"; "2"]]).
  repeat (constructor; [split; [discriminate|repeat (constructor; [reflexivity|]); constructor]|]).
  constructor.
Defined.

Lemma report_round_trip_witness :
  extract_count (report ["0 100"; "1 7"; "* 3"]) = Ok 7.
Proof.
  exact (report_round_trip "0 100" "1" 7 ["* 3"] eq_refl eq_refl).
Defined.

(** ** The submission loop *)

Lemma single_worker_runs_serially_witness :
  exists σ1 : state Q,
    submit_all w_flags 1 [["1"; "2"; "7"]; ["3"; "4"; "7"]] initial = (Done tt, σ1)
    /\ trace σ1
       = [EStart 0 "elevation" "rcb" "tempViewsh7" "1,2" (viewshed_options sample_options);
          EWait 0;
          EStart 1 "elevation" "rcb" "tempViewsh7" "3,4" (viewshed_options sample_options);
          EWait 1]
    /\ running (trace σ1) = ∅.
Proof.
  destruct (single_worker_runs_serially Q w_flags [["1"; "2"; "7"]; ["3"; "4"; "7"]])
    as (σ1 & Hs & Ht & Hr & _).
  - repeat (constructor; [reflexivity|]). constructor.
  - exists σ1. split; [exact Hs|]. split; [rewrite Ht; reflexivity|exact Hr].
Defined.

Lemma batch_wait_needs_every_key_witness :
  (exists σ' : state Q, submit w_sparse 1 ["2"; "2"; "4"] initial = (Done tt, σ'))
  /\ exists σ' : state Q,
       submit w_sparse 2 ["2"; "2"; "4"] initial = (Raised KeyError, σ')
       /\ job_start w_sparse 0 4 ["2"; "2"; "4"] ∈ trace σ'.
Proof.
  split.
  - apply (proj1 (batch_wait_needs_every_key Q w_sparse 1 ["2"; "2"; "4"] 4 initial
                    ltac:(lia) eq_refl eq_refl)).
    intros job Hjob. assert (job = 0) as -> by lia. vm_compute. eexists. reflexivity.
  - apply (proj2 (batch_wait_needs_every_key Q w_sparse 2 ["2"; "2"; "4"] 4 initial
                    ltac:(lia) eq_refl eq_refl) 1); [lia|vm_compute; reflexivity].
Defined.

Lemma last_batch_never_waited_witness :
  2%nat ∈ running (trace (snd (run decimal_float w_three 5)))
  /\ ~ 0%nat ∈ running (trace (snd (run decimal_float w_three 5))).
Proof.
  assert (H : resolve_workers (cpu_count w_three) (environ_WORKERS w_three) = Ok 2)
    by reflexivity.
  assert (Hs : sequential (parse_points (v_out_ascii w_three))) by reflexivity.
  split.
  - apply (last_batch_never_waited Q decimal_float w_three 2 H Hs 5%nat 2%nat).
    vm_compute. lia.
  - intros H0.
    apply (last_batch_never_waited Q decimal_float w_three 2 H Hs 5%nat 0%nat) in H0.
    vm_compute in H0. lia.
Defined.

Lemma outputs_distinct_iff_numbers_distinct_witness :
  started_outputs (trace (snd (submit_all (float := Q) w_flags 1
                                 [["1"; "2"; "7"]; ["3"; "4"; "7"]] initial)))
  = ["tempViewsh7"; "tempViewsh7"]
  /\ ~ NoDup (started_outputs
                (trace (snd (submit_all (float := Q) w_flags 1
                               [["1"; "2"; "7"]; ["3"; "4"; "7"]] initial)))).
Proof.
  destruct (outputs_distinct_iff_numbers_distinct Q w_flags 1
              [["1"; "2"; "7"]; ["3"; "4"; "7"]]
              (snd (submit_all w_flags 1 [["1"; "2"; "7"]; ["3"; "4"; "7"]] initial)))
    as [Hnames Hiff]; [vm_compute; reflexivity|].
  split; [rewrite Hnames; reflexivity|].
  intros Hn. apply Hiff in Hn. vm_compute in Hn.
  apply NoDup_cons in Hn as [Hn _]. apply Hn. apply list_elem_of_here.
Defined.

Lemma number_round_trip_witness :
  EStart (float := Q) 0 "elevation" "b" "tempViewsh12" "3,4" (viewshed_options sample_options)
  ∈ trace (snd (submit w_three 2 ["3"; "4"; "12"; "site"] initial)).
Proof. apply (number_round_trip Q w_three 2 "3" "4" 12 ["site"] initial). Defined.

(** ** The aggregation loop *)

Lemma poll_stops_at_first_yes_witness :
  exists k,
    (k < 5)%nat
    /\ find_file w_three k "tempViewsh1" = true
    /\ (forall j, (j < k)%nat -> find_file w_three j "tempViewsh1" = false)
    /\ trace (snd (poll (float := Q) w_three 5 "tempViewsh1" initial))
       = replicate k (EFindFile "tempViewsh1" false) ++ [EFindFile "tempViewsh1" true].
Proof.
  pose proof (poll_stops_at_first_yes Q w_three 5 "tempViewsh1" initial
                (snd (poll w_three 5 "tempViewsh1" initial)) (Done tt)) as H.
  destruct H as (k & Hk & Hy & Hn & _ & Ht); [vm_compute; reflexivity|].
  exists k. split; [exact Hk|]. split; [exact Hy|]. split; [exact Hn|exact Ht].
Defined.

Lemma aggregation_one_job_at_a_time_witness :
  exists (t1 : list (event Q)) blocks rows,
    trace (snd (run decimal_float w_flags 5))
    = EOutAscii "observers" :: t1 ++ concat blocks ++ closing_events w_flags rows
    /\ Forall is_launch t1
    /\ Forall2 (fun viewsh block => poll_block (artifact_name (Z.of_nat viewsh + 1)) block)
         (seq 0 (length (parse_points (v_out_ascii w_flags)))) blocks.
Proof.
  apply (aggregation_one_job_at_a_time Q decimal_float w_flags 5).
  vm_compute. reflexivity.
Defined.

Lemma run_phases_in_order_witness :
  exists (t1 t2 t3 : list (event Q)),
    trace (snd (run decimal_float w_flags 5)) = EOutAscii "observers" :: t1 ++ t2 ++ t3
    /\ Forall is_launch t1 /\ Forall is_poll t2 /\ Forall is_output t3
    /\ exists rows, t3 = closing_events w_flags rows.
Proof.
  destruct (run_phases_in_order Q decimal_float w_flags 5 (Done tt)
              (snd (run decimal_float w_flags 5)))
    as (t1 & t2 & t3 & Ht & H1 & H2 & H3 & _ & Hdone); [vm_compute; reflexivity|].
  exists t1, t2, t3. split; [exact Ht|]. split; [exact H1|]. split; [exact H2|].
  split; [exact H3|]. apply Hdone. reflexivity.
Defined.

Lemma bad_coordinate_detected_late_witness :
  coordinates_of decimal_float ["east"; "4"; "2"] = Err ValueError
  /\ fst (run decimal_float w_bad_coordinate 1) <> Done tt
  /\ rasterized (trace (snd (run decimal_float w_bad_coordinate 1))) = []
  /\ job_start (float := Q) w_bad_coordinate 1 2 ["east"; "4"; "2"]
     ∈ trace (snd (submit w_bad_coordinate 1 ["east"; "4"; "2"]
                     (snd (submit w_bad_coordinate 1 ["1"; "2"; "1"] initial)))).
Proof.
  split; [reflexivity|].
  destruct (bad_coordinate_detected_late Q decimal_float w_bad_coordinate 1 1
              ["east"; "4"; "2"] ValueError) as (Hrun & Hstart & _);
    [reflexivity|reflexivity|].
  destruct (Hrun _ _ (surjective_pairing (run decimal_float w_bad_coordinate 1)))
    as [Hne Hr].
  split; [exact Hne|]. split; [exact Hr|].
  apply (Hstart 1 2 (snd (submit w_bad_coordinate 1 ["1"; "2"; "1"] initial)) _ _ eq_refl
           (surjective_pairing _)).
Defined.

Lemma ended_run_independent_of_cut_witness :
  run decimal_float w_three 100 = run decimal_float w_three 5
  /\ fst (run decimal_float w_three 100) = Done tt.
Proof.
  assert (H : run decimal_float w_three 100
              = (Done tt, snd (run decimal_float w_three 5))).
  { apply (ended_run_independent_of_cut Q decimal_float w_three 5 100);
      [vm_compute; reflexivity|discriminate|lia]. }
  split; [rewrite H; vm_compute; reflexivity|rewrite H; reflexivity].
Defined.
